(** * Desk matcher of the occupancy planner: a shallow embedding

    The development embeds [src/services/nlp.js] (parseQuery) and
    [src/services/matcher.js] (matchDesks) and settles the properties the
    specification states about them.

    Modelling conventions.
    - JS strings are Rocq strings of 8-bit characters; [toLowerCase] folds the
      ASCII letters only.
    - Timestamps ([new Date(...)] values, [last_used], [last_reading], [date])
      are integers: milliseconds since the epoch, as [Date] subtraction and
      comparison see them.  Date strings are taken to parse.
    - Other JS numbers (occupancy percentage, utilization rate, hour counts,
      comparator results) are exact rationals.  Every number is only ever
      compared, and the quotient of a millisecond count by 3600000 is on the
      same side of the thresholds 1 and 4 in double precision as it is in the
      rationals.
    - A thrown exception is the result [None] of a computation in [option].
    - A JS object used as a map from area identifiers is a [gmap string _]
      of its own properties.  What the object inherits from
      [Object.prototype] is modelled where the code meets it: an assignment
      to [__proto__] stores no property (it is ignored for a number and
      replaces the prototype for an object), and reading a name that is no
      own property yields the inherited member where there is one.
    - The reference data the module loads from [data/*.json] and the two
      runtime collaborators (the chat completion call, [JSON.parse]) are
      section variables. *)

From Stdlib Require Import ZArith QArith Lqa String Ascii List Permutation Sorted Lia.
From stdpp Require Import base option list gmap strings pretty.
Import ListNotations.

Local Open Scope string_scope.
Local Open Scope Z_scope.

(** ** JS strings *)

Module JsString.

Definition toLowerCase_char (c : ascii) : ascii :=
  let n := N_of_ascii c in
  if ((65 <=? n) && (n <=? 90))%N then ascii_of_N (n + 32) else c.

(** [s.toLowerCase()] *)
Fixpoint toLowerCase (s : string) : string :=
  match s with
  | EmptyString => EmptyString
  | String c s' => String (toLowerCase_char c) (toLowerCase s')
  end.

(** [s.startsWith(p)] *)
Fixpoint startsWith (s p : string) {struct p} : bool :=
  match p, s with
  | EmptyString, _ => true
  | String _ _, EmptyString => false
  | String a p', String b s' => Ascii.eqb a b && startsWith s' p'
  end.

(** [s.includes(sub)] *)
Fixpoint includes (s sub : string) : bool :=
  startsWith s sub ||
  match s with
  | EmptyString => false
  | String _ s' => includes s' sub
  end.

(** The rest of [s] behind the prefix [p], when [s] starts with [p]. *)
Fixpoint strip_prefix (p s : string) : option string :=
  match p, s with
  | EmptyString, _ => Some s
  | String _ _, EmptyString => None
  | String a p', String b s' =>
      if Ascii.eqb a b then strip_prefix p' s' else None
  end.

Fixpoint rev (s : string) : string :=
  match s with
  | EmptyString => EmptyString
  | String c s' => rev s' ++ String c EmptyString
  end.

Definition strip_suffix (p s : string) : option string :=
  rev <$> strip_prefix (rev p) (rev s).

Definition LF : ascii := ascii_of_N 10.
Definition CR : ascii := ascii_of_N 13.

Definition is_space (c : ascii) : bool :=
  let n := N_of_ascii c in
  ((9 <=? n) && (n <=? 13) || (n =? 32))%N.

Fixpoint trimStart (s : string) : string :=
  match s with
  | EmptyString => EmptyString
  | String c s' => if is_space c then trimStart s' else s
  end.

(** [s.trim()] *)
Definition trim (s : string) : string := rev (trimStart (rev (trimStart s))).

(** "There is a piece of [s] that equals [sub] up to the case of its
    letters": the meaning of "case-insensitive substring". *)
Definition ci_substring (sub s : string) : Prop :=
  ∃ a m b, s = a ++ m ++ b ∧ toLowerCase m = toLowerCase sub.

End JsString.

(** ** JSON values, as [JSON.parse] yields them *)

Unset Elimination Schemes.
Inductive json : Type :=
| JNull
| JBool (b : bool)
| JNum (q : Q)
| JStr (s : string)
| JArr (items : list json)
| JObj (props : list (string * json)).
Set Elimination Schemes.

(** [v === s] for a string [s]. *)
Definition strict_eq_str (v : json) (s : string) : bool :=
  match v with
| JStr t => String.eqb t s
| _ => false
  end.

(** [arr.includes(v)] on an array of strings. *)
Definition includes_val (arr : list string) (v : json) : bool :=
  existsb (strict_eq_str v) arr.

(** [arr.includes(s)] on an array of parsed values, for a string [s]. *)
Definition includes_str (arr : list json) (s : string) : bool :=
  existsb (fun v => strict_eq_str v s) arr.

(** Reading property [k] of [raw]: [None] when that throws (on [null]),
  [Some None] for [undefined].  The names read below are no members of
  strings, arrays, numbers or booleans.  An object lists each of its
  properties once. *)
Definition get_prop (raw : json) (k : string) : option (option json) :=
  match raw with
| JNull => None
| JObj props => Some (snd <$> List.find (fun kv => String.eqb (fst kv) k) props)
| _ => Some None
  end.

(** ** nlp.js *)

Module Nlp.
Import JsString.

Record Parsed : Type := {
  team : string;
  desk_preferences : list json;
  equipment_needs : list json;
  preferred_days : list json;
  preferred_location : string;
  accessibility_needs : option string;   (* [None] is [null] *)
  adjacency_preferences : list json
}.

Definition DEFAULT_PARSED : Parsed := {|
  team := EmptyString;
  desk_preferences := [];
  equipment_needs := [];
  preferred_days := [];
  preferred_location := EmptyString;
  accessibility_needs := None;
  adjacency_preferences := []
|}.

(** What awaiting [client.chat.completions.create] and reading
    [completion.choices[0].message.content] comes to: an exception, or the
    text of the reply. *)
Inductive completion : Type :=
| Throws
| Content (text : string).

Definition fence : string := "```".

(** [\r?\n] at the head of [s]. *)
Definition eol (s : string) : option string :=
  match s with
  | String c (String c' u) =>
      if Ascii.eqb c CR && Ascii.eqb c' LF then Some u
      else if Ascii.eqb c LF then Some (String c' u) else None
  | String c u => if Ascii.eqb c LF then Some u else None
  | EmptyString => None
  end.

(** [.replace(/^```(?:json)?\r?\n/, "")] *)
Definition strip_leading_fence (s : string) : string :=
  match strip_prefix fence s with
  | None => s
  | Some r =>
      match strip_prefix "json" r ≫= eol with
      | Some u => u
      | None => match eol r with Some u => u | None => s end
      end
  end.

(** [.replace(/\r?\n```$/, "")] *)
Definition strip_trailing_fence (s : string) : string :=
  match strip_suffix (String CR (String LF fence)) s with
  | Some u => u
  | None =>
      match strip_suffix (String LF fence) s with
      | Some u => u
      | None => s
      end
  end.

Definition strip_fences (jsonText : string) : string :=
  if startsWith jsonText fence
  then trim (strip_trailing_fence (strip_leading_fence jsonText))
  else jsonText.

Definition as_string (d : string) (v : option json) : string :=
  match v with Some (JStr s) => s | _ => d end.

Definition as_array (d : list json) (v : option json) : list json :=
  match v with Some (JArr l) => l | _ => d end.

Definition as_string_or_null (d : option string) (v : option json) : option string :=
  match v with
  | Some JNull => None
  | Some (JStr s) => Some s
  | _ => d
  end.

(** Property [k] of the reply is no array, or no string. *)
Definition no_array (raw : json) (k : string) : Prop :=
  ∀ a, get_prop raw k ≠ Some (Some (JArr a)).

Definition no_string (raw : json) (k : string) : Prop :=
  ∀ s, get_prop raw k ≠ Some (Some (JStr s)).

Section parseQuery.
(** The chat completion call, by the query text its prompt is built from. *)
Variable chat : string → completion.
(** [JSON.parse]; [None] when it throws. *)
Variable JSON_parse : string → option json.

(** The [try] block with its [catch]: the value of [raw] behind it. *)
Definition raw_of (q : string) : json :=
    match chat q with
    | Throws => JObj []
    | Content text =>
        match JSON_parse (strip_fences (trim text)) with
        | Some v => v
        | None => JObj []
        end
    end.

(** The object literal behind the [try]; property reads throw on [null]. *)
Definition shape (raw : json) : option Parsed :=
    t ← get_prop raw "team";
    dp ← get_prop raw "desk_preferences";
    en ← get_prop raw "equipment_needs";
    pd ← get_prop raw "preferred_days";
    pl ← get_prop raw "preferred_location";
    an ← get_prop raw "accessibility_needs";
    ap ← get_prop raw "adjacency_preferences";
    Some {|
      team := as_string (team DEFAULT_PARSED) t;
      desk_preferences := as_array (desk_preferences DEFAULT_PARSED) dp;
      equipment_needs := as_array (equipment_needs DEFAULT_PARSED) en;
      preferred_days := as_array (preferred_days DEFAULT_PARSED) pd;
      preferred_location := as_string (preferred_location DEFAULT_PARSED) pl;
      accessibility_needs :=
        as_string_or_null (accessibility_needs DEFAULT_PARSED) an;
      adjacency_preferences := as_array (adjacency_preferences DEFAULT_PARSED) ap
    |}.

Definition parseQuery (q : string) : option Parsed := shape (raw_of q).
End parseQuery.

End Nlp.

(** ** matcher.js *)

Module Matcher.
Import JsString Nlp.
Local Open Scope list_scope.

(** *** Records of the reference data *)

Record Desk : Type := {
  d_id : string;
  d_type : string;
  d_area_id : string;
  d_floor : Z;
  d_zone : string;
  d_location_description : option string;
  d_features : list string;
  d_status : string;
  d_last_used : Z
}.

Record Occupancy : Type := {
  o_area_id : string;
  o_occupancy_percentage : Q
}.

Record Space : Type := {
  sp_id : string;
  sp_name : string;
  sp_parent_id : option string
}.

Record EmployeePreferences : Type := {
  e_employee_id : string;
  e_desk_preferences : option (list string);
  e_equipment_needs : option (list string);
  e_adjacency_preferences : option (list string);
  e_preferred_location : option string;
  e_accessibility_needs : option string
}.

Record Policy : Type := {
  pol_id : string
}.

Record Metric : Type := {
  m_area_id : string;
  m_date : Z;
  m_utilization_rate : option Q
}.

Record Sensor : Type := {
  s_area_id : string;
  s_status : string;
  s_last_reading : Z
}.

(** The value of a [sensorMap] entry. *)
Record SensorHealth : Type := {
  status : string;
  lastReading : Z
}.

(** The merged preferences the request is served with (the constants
    [deskPreferences], [equipNeeds], [adjPrefs], [preferredLocation] and
    [accessibilityNeed] of [matchDesks]). *)
Record Effective : Type := {
  deskPreferences : list json;
  equipNeeds : list json;
  adjPrefs : list json;
  preferredLocation : string;
  accessibilityNeed : string
}.

(** *** Helpers for JS idioms *)

(** Truthiness of a string. *)
Definition nonempty (s : string) : bool :=
  match s with EmptyString => false | _ => true end.

(** Truthiness of [arr?.length]. *)
Definition has_length {A} (arr : list A) : bool :=
  match arr with [] => false | _ => true end.

(** Truthiness of the result of [find]. *)
Definition found {A} (o : option A) : bool :=
  match o with Some _ => true | None => false end.

Definition Qltb (x y : Q) : bool := negb (Qle_bool y x).

(** Milliseconds to hours: [ms / (1000 * 60 * 60)]. *)
Definition hours (ms : Z) : Q := (inject_Z ms / inject_Z (1000 * 60 * 60))%Q.

(** *** [Array.prototype.sort] with a comparator

    With a consistent comparator the sorted array is the one stable
    rearrangement that is ordered by the comparator, so that any stable sort
    computes it; insertion is the simplest. *)

Section Array_sort.
Context {A : Type}.
Variable compare : A → A → Q.

Fixpoint insert_by (x : A) (l : list A) : list A :=
  match l with
  | [] => [x]
  | y :: l' =>
      if Qle_bool (compare x y) 0 then x :: y :: l' else y :: insert_by x l'
  end.

Definition Array_sort (l : list A) : list A := foldr insert_by [] l.

(** [a] may stand before [b]: the comparator does not put [b] first. *)
Definition before (a b : A) : Prop := (compare a b <= 0)%Q.
End Array_sort.

(** *** matchDesks *)

Section matchDesks.

(** [data/*.json] *)
Variable desksData : list Desk.
Variable occData : list Occupancy.
Variable spacesData : list Space.
Variable prefsData : list EmployeePreferences.
Variable policiesData : list Policy.
Variable metricsData : list Metric.
Variable sensorsData : list Sensor.

(** The collaborators of [parseQuery]. *)
Variable chat : string → completion.
Variable JSON_parse : string → option json.

(** [new Date()] at the start of the request. *)
Variable now : Z.

(** Employee preferences; [None] is the [{}] of the fallback. *)
Definition employeePrefs (employeeId : option string) : option EmployeePreferences :=
  List.find
    (fun e => match employeeId with
              | Some i => String.eqb (e_employee_id e) i
              | None => false
              end)
    prefsData.

Definition baseDeskPrefs (employeeId : option string) : list string :=
  default [] (employeePrefs employeeId ≫= e_desk_preferences).
Definition baseEquipNeeds (employeeId : option string) : list string :=
  default [] (employeePrefs employeeId ≫= e_equipment_needs).
Definition baseAdjPrefs (employeeId : option string) : list string :=
  default [] (employeePrefs employeeId ≫= e_adjacency_preferences).
Definition baseLocation (employeeId : option string) : string :=
  default EmptyString (employeePrefs employeeId ≫= e_preferred_location).
Definition baseAccessibility (employeeId : option string) : string :=
  default EmptyString (employeePrefs employeeId ≫= e_accessibility_needs).

(** Lines 82-99: parsed values win when they are there. *)
Definition effective (employeeId : option string) (parsed : Parsed) : Effective := {|
  deskPreferences :=
    if has_length (desk_preferences parsed)
    then desk_preferences parsed
    else JStr <$> baseDeskPrefs employeeId;
  equipNeeds :=
    if has_length (equipment_needs parsed)
    then equipment_needs parsed
    else JStr <$> baseEquipNeeds employeeId;
  adjPrefs :=
    if has_length (adjacency_preferences parsed)
    then adjacency_preferences parsed
    else JStr <$> baseAdjPrefs employeeId;
  preferredLocation :=
    if nonempty (preferred_location parsed)
    then preferred_location parsed
    else baseLocation employeeId;
  accessibilityNeed :=
    match accessibility_needs parsed with
    | Some s => s
    | None => baseAccessibility employeeId
    end
|}.

(** The merged preferences are the stored ones in every field. *)
Definition stored_only (employeeId : option string) (eff : Effective) : Prop :=
  deskPreferences eff = JStr <$> baseDeskPrefs employeeId
  ∧ equipNeeds eff = JStr <$> baseEquipNeeds employeeId
  ∧ adjPrefs eff = JStr <$> baseAdjPrefs employeeId
  ∧ preferredLocation eff = baseLocation employeeId
  ∧ accessibilityNeed eff = baseAccessibility employeeId.

(** Final desired desk type: the first preference that is one of the two
    type names, or [None] for [null]. *)
Definition finalDeskType (deskPreferences : list json) : option json :=
  List.find (fun d => includes_val ["standing"; "regular"] d) deskPreferences.

(** The names of the members of [Object.prototype], which the object
    literals [occMap], [metricsMap] and [sensorMap] inherit: eleven functions
    and the accessor [__proto__]. *)
Definition Object_prototype_members : list string :=
  [ "constructor"; "__defineGetter__"; "__defineSetter__"; "hasOwnProperty";
    "__lookupGetter__"; "__lookupSetter__"; "isPrototypeOf";
    "propertyIsEnumerable"; "toString"; "valueOf"; "__proto__";
    "toLocaleString" ].

Definition inherited (k : string) : bool :=
  existsb (String.eqb k) Object_prototype_members.

(** 3a. Live occupancy map: the own properties of [occMap].  The setter of
    [__proto__] ignores a number, so that [occMap["__proto__"] = n] stores
    nothing; any other name becomes an own property. *)
Definition occMap : gmap string Q :=
  fold_left
    (fun m o =>
       if String.eqb (o_area_id o) "__proto__" then m
       else <[o_area_id o := o_occupancy_percentage o]> m)
    occData ∅.

(** 3b. Latest metrics map: the own properties of [metricsMap].  For an area
    named like a member of [Object.prototype] and not yet stored, [existing]
    is the inherited member: it is truthy and has no [date], the comparison
    with the invalid date is false and the record is not stored. *)
Definition metricsMap : gmap string Metric :=
  fold_left
    (fun mm m =>
       match mm !! m_area_id m with
       | None =>
           if inherited (m_area_id m) then mm else <[m_area_id m := m]> mm
       | Some existing =>
           if m_date existing <? m_date m then <[m_area_id m := m]> mm else mm
       end)
    metricsData ∅.

(** What reading [sensorMap[k]] yields. *)
Inductive sensor_value : Type :=
| NoValue                          (* [undefined] *)
| Entry (sensor : SensorHealth)    (* a sensor record *)
| Foreign (truthy : bool).         (* a value that is no sensor record: its
                                      [status] is [undefined] *)

(** 3c. Sensor health map.  Each name but [__proto__] becomes an own
    property; an assignment to [__proto__] makes the record the prototype of
    [sensorMap], and reading [__proto__] yields the prototype: the binding of
    [__proto__] in the map below stands for it. *)
Definition sensorMap : gmap string SensorHealth :=
  fold_left
    (fun m s =>
       <[s_area_id s := {| status := s_status s; lastReading := s_last_reading s |}]> m)
    sensorsData ∅.

(** [sensorMap[k]]: an own property; else what the prototype chain has: the
    members of [Object.prototype] (functions, and under [__proto__] the
    prototype object itself), and, once a record has been made the prototype,
    its two fields, a string and a [Date]. *)
Definition sensor_read (k : string) : sensor_value :=
  match sensorMap !! k with
  | Some sensor => Entry sensor
  | None =>
      if inherited k then Foreign true
      else
        match sensorMap !! "__proto__" with
        | Some prototype =>
            if String.eqb k "status" then Foreign (nonempty (status prototype))
            else if String.eqb k "lastReading" then Foreign true
            else NoValue
        | None => NoValue
        end
  end.

(** 4d: the location test. *)
Definition location_passes (preferredLocation : string) (d : Desk) : bool :=
  if nonempty preferredLocation then
    if negb (String.eqb (d_zone d) preferredLocation) then
      match List.find (fun s => String.eqb (sp_name s) (d_zone d)) spacesData with
      | None => false
      | Some zone =>
          match
            List.find
              (fun s => match sp_parent_id zone with
                        | Some p => String.eqb (sp_id s) p
                        | None => false
                        end)
              spacesData
          with
          | None => false
          | Some floor => String.eqb (sp_name floor) preferredLocation
          end
      end
    else true
  else true.

Definition capPolicy : option Policy :=
  List.find (fun p => String.eqb (pol_id p) "POL-005") policiesData.

Definition sanPolicy : option Policy :=
  List.find (fun p => String.eqb (pol_id p) "POL-002") policiesData.

(** [occMap[d.area_id] >= 80]; [undefined >= 80] is false, and so is the
    comparison of an inherited member, which is no number, with 80. *)
Definition occupancy_ge_80 (d : Desk) : bool :=
  match occMap !! d_area_id d with
  | Some pct => Qle_bool 80 pct
  | None => false
  end.

(** 4. The callback of [desksData.desks.filter]. *)
Definition passes (eff : Effective) (d : Desk) : bool :=
  (* 4a *)
  if negb (String.eqb (d_status d) "available") then false else
  (* 4b *)
  if match finalDeskType (deskPreferences eff) with
     | Some t => negb (strict_eq_str t (d_type d))
     | None => false
     end then false else
  (* 4c *)
  if String.eqb (d_type d) "standing"
     && negb (includes_str (deskPreferences eff) "standing") then false else
  if existsb (fun need => negb (includes_val (d_features d) need)) (equipNeeds eff)
  then false else
  (* 4d *)
  if negb (location_passes (preferredLocation eff) d) then false else
  (* 4e *)
  if found capPolicy && occupancy_ge_80 d then false else
  (* 4f *)
  if found sanPolicy
     && (let hoursSinceLastUse := hours (now - d_last_used d) in
         Qltb hoursSinceLastUse 4) then false else
  (* 4g *)
  if nonempty (accessibilityNeed eff)
     && (let desc := toLowerCase (default EmptyString (d_location_description d)) in
         negb (existsb (String.eqb (accessibilityNeed eff)) (d_features d))
         && negb (includes desc (accessibilityNeed eff))) then false else
  (* 4h *)
  match sensor_read (d_area_id d) with
  | Entry sensor =>
      if negb (String.eqb (status sensor) "active") then false else
      let ageHours := hours (now - lastReading sensor) in
      (* TEST OVERRIDE: force age to 0 *)
      let ageHours := 0%Q in
      if Qltb 1 ageHours then false else true
  | Foreign truthy =>
      (* [sensor.status] is [undefined], which is not ['active'] *)
      if truthy then false else true
  | NoValue => true
  end.

Definition candidates (eff : Effective) : list Desk :=
  List.filter (passes eff) desksData.

(** The nine tests of the callback, one by one, each as a predicate of its
    own on the desk. *)
Definition availability (d : Desk) : bool :=
  String.eqb (d_status d) "available".

Definition deskType (eff : Effective) (d : Desk) : bool :=
  match finalDeskType (deskPreferences eff) with
  | Some t => strict_eq_str t (d_type d)
  | None => true
  end.

Definition standingPolicy (eff : Effective) (d : Desk) : bool :=
  negb (String.eqb (d_type d) "standing"
        && negb (includes_str (deskPreferences eff) "standing")).

Definition equipment (eff : Effective) (d : Desk) : bool :=
  forallb (fun need => includes_val (d_features d) need) (equipNeeds eff).

Definition location (eff : Effective) (d : Desk) : bool :=
  location_passes (preferredLocation eff) d.

Definition capacity (d : Desk) : bool :=
  negb (found capPolicy && occupancy_ge_80 d).

Definition sanitization (d : Desk) : bool :=
  negb (found sanPolicy && Qltb (hours (now - d_last_used d)) 4).

Definition accessibility (eff : Effective) (d : Desk) : bool :=
  negb (nonempty (accessibilityNeed eff)
        && (negb (existsb (String.eqb (accessibilityNeed eff)) (d_features d))
            && negb (includes
                       (toLowerCase (default EmptyString (d_location_description d)))
                       (accessibilityNeed eff)))).

Definition sensorHealth (d : Desk) : bool :=
  match sensor_read (d_area_id d) with
  | Entry sensor =>
      String.eqb (status sensor) "active"
      && negb (let ageHours := hours (now - lastReading sensor) in
               let ageHours := 0%Q in
               Qltb 1 ageHours)
  | Foreign truthy => negb truthy
  | NoValue => true
  end.

Definition cascade (eff : Effective) : list (Desk → bool) :=
  [ availability; deskType eff; standingPolicy eff; equipment eff; location eff;
    capacity; sanitization; accessibility eff; sensorHealth ].

(** A desk is adjacency-preferred when its zone name contains one of the
    adjacency preferences, letters compared without their case. *)
Definition adjacency_preferred (adjPrefs : list json) (d : Desk) : Prop :=
  ∃ pref, In (JStr pref) adjPrefs ∧ ci_substring pref (d_zone d).

(** [adjPrefs.some(pref => d.zone.toLowerCase().includes(pref.toLowerCase()))];
    a preference that is no string has no [toLowerCase] and the call throws. *)
Fixpoint isAdjacent (adjPrefs : list json) (d : Desk) : option bool :=
  match adjPrefs with
  | [] => Some false
  | JStr pref :: rest =>
      if includes (toLowerCase (d_zone d)) (toLowerCase pref)
      then Some true
      else isAdjacent rest d
  | _ :: _ => None
  end.

(** The preferences are strings, as the collaborator's contract has them. *)
Definition all_strings (prefs : list json) : Prop :=
  ∀ v, In v prefs → ∃ s, v = JStr s.

(** [isAdjacent] came out true. *)
Definition adjacent_true (adjPrefs : list json) (d : Desk) : bool :=
  match isAdjacent adjPrefs d with Some true => true | _ => false end.

(** The [forEach] that fills [adjList] and [otherList]. *)
Fixpoint partition_loop (adjPrefs : list json) (cands adjList otherList : list Desk)
  : option (list Desk * list Desk) :=
  match cands with
  | [] => Some (adjList, otherList)
  | d :: rest =>
      b ← isAdjacent adjPrefs d;
      if b : bool
      then partition_loop adjPrefs rest (adjList ++ [d]) otherList
      else partition_loop adjPrefs rest adjList (otherList ++ [d])
  end.

(** a) equipment match count *)
Definition matchCount (eff : Effective) (d : Desk) : nat :=
  length (List.filter (fun n => includes_val (d_features d) n) (equipNeeds eff)).

(** c) [metricsMap[d.area_id]?.utilization_rate ?? 1]; an inherited member
    has no [utilization_rate] and counts 1 like [undefined]. *)
Definition utilization (d : Desk) : Q :=
  match metricsMap !! d_area_id d with
  | Some m => default 1%Q (m_utilization_rate m)
  | None => 1%Q
  end.

(** The comparator handed to [sort]. *)
Definition compare (eff : Effective) (a b : Desk) : Q :=
  let matchA := Z.of_nat (matchCount eff a) in
  let matchB := Z.of_nat (matchCount eff b) in
  if negb (matchB =? matchA) then inject_Z (matchB - matchA) else
  let recencyDiff := d_last_used a - d_last_used b in
  if negb (recencyDiff =? 0) then inject_Z recencyDiff else
  let utilA := utilization a in
  let utilB := utilization b in
  (utilA - utilB)%Q.

Definition sorter (eff : Effective) (arr : list Desk) : list Desk :=
  Array_sort (compare eff) arr.

(** The order of a ranked part, key by key: of two desks, the one that comes
    first has no fewer equipment matches; with as many, it was not used
    later; used at the same time, its utilization is not higher. *)
Definition ranked (eff : Effective) (part : list Desk) : Prop :=
  ∀ l1 A l2 B l3, part = l1 ++ A :: l2 ++ B :: l3 →
    (matchCount eff B ≤ matchCount eff A)%nat
    ∧ (matchCount eff A = matchCount eff B →
       d_last_used A ≤ d_last_used B
       ∧ (d_last_used A = d_last_used B → (utilization A <= utilization B)%Q)).

(** [l] is the adjacency-preferred part followed by the other part. *)
Definition in_two_parts (adjPrefs : list json) (l adjPart otherPart : list Desk) : Prop :=
  l = adjPart ++ otherPart
  ∧ Forall (adjacency_preferred adjPrefs) adjPart
  ∧ Forall (fun d => ¬ adjacency_preferred adjPrefs d) otherPart.

(** Everything behind the normalisation of the preferences. *)
Definition rank (eff : Effective) : option (list Desk) :=
  '(adjList, otherList) ← partition_loop (adjPrefs eff) (candidates eff) [] [];
  Some (sorter eff adjList ++ sorter eff otherList).

Definition matchDesks (employeeId : option string) (query : string)
  : option (list Desk) :=
  parsed ← parseQuery chat JSON_parse query;
  rank (effective employeeId parsed).

End matchDesks.
End Matcher.

(** ** controllers/matchController.js *)

Module Controller.
Import JsString Nlp Matcher.

(** What the handler sends: the status set with [res.status] (200 when it is
    not set) and the fields of the object given to [res.json]. *)
Record Response : Type := {
  code : Z;
  success : bool;
  message : option string;
  error : option string;
  data : option (list Desk)
}.

(** [res.status(400).json({ success: false, error })] *)
Definition bad_request (err : string) : Response :=
  {| code := 400; success := false; message := None; error := Some err;
     data := None |}.

(** The validation of [employeeId]: a response when it is rejected, else the
    identifier handed on, [None] for [undefined]. *)
Definition checked_employeeId (employeeId : option json) : Response + option string :=
  match employeeId with
  | None => inr None
  | Some (JStr e) =>
      let e := trim e in
      inr (if nonempty e then Some e else None)
  | Some _ => inl (bad_request "employeeId must be a string")
  end.

(** The validation of [query]. *)
Definition checked_query (query : option json) : Response + string :=
  match query with
  | Some (JStr q) =>
      let q := trim q in
      if negb (nonempty q) then inl (bad_request "query cannot be empty")
      else if (200 <? String.length q)%nat
           then inl (bad_request "query too long (max 200 characters)")
           else inr q
  | _ => inl (bad_request "query must be a string")
  end.

(** The two replies of the [try] block and the one of its [catch]. *)
Definition found_message (n : nat) : string :=
  "Found " ++ pretty n ++ " desk" ++ (if (1 <? n)%nat then "s" else EmptyString).

Definition reply (result : option (list Desk)) : Response :=
  match result with
  | Some l =>
      if (length l =? 0)%nat
      then {| code := 200; success := true;
              message := Some "No desks found matching your criteria";
              error := None; data := Some [] |}
      else {| code := 200; success := true;
              message := Some (found_message (length l));
              error := None; data := Some l |}
  | None =>
      {| code := 500; success := false; message := None;
         error := Some "Internal server error"; data := None |}
  end.

Section matchDesksHandler.
Variable desksData : list Desk.
Variable occData : list Occupancy.
Variable spacesData : list Space.
Variable prefsData : list EmployeePreferences.
Variable policiesData : list Policy.
Variable metricsData : list Metric.
Variable sensorsData : list Sensor.
Variable chat : string → completion.
Variable JSON_parse : string → option json.
Variable now : Z.

(** The handler behind the destructuring of the body. *)
Definition respond (employeeId query : option json) : Response :=
  match checked_employeeId employeeId with
  | inl rejected => rejected
  | inr employeeId =>
      match checked_query query with
      | inl rejected => rejected
      | inr query =>
          reply (matchDesks desksData occData spacesData prefsData policiesData
                   metricsData sensorsData chat JSON_parse now employeeId query)
      end
  end.

(** [matchDesksHandler(req, res)], by [req.body]; [None] when reading the
    body throws, which leaves the response to the error handler of the
    application. *)
Definition matchDesksHandler (body : json) : option Response :=
  employeeId ← get_prop body "employeeId";
  query ← get_prop body "query";
  Some (respond employeeId query).

End matchDesksHandler.
End Controller.

(** ** Sample data

    A small office in the shape of the README's example, for running the
    matcher. *)

Module Fixtures.
Import Nlp Matcher.
Local Open Scope list_scope.

(** 2025-05-07T09:00:00Z *)
Definition now0 : Z := 1746608400000.

(** Standing desk of the README; last used 2025-05-06T16:45:00Z. *)
Definition D304 : Desk := {|
  d_id := "D-304"; d_type := "standing"; d_area_id := "area-002"; d_floor := 3;
  d_zone := "Marketing Zone"; d_location_description := Some "Near breakout area";
  d_features := ["dual-monitors"; "ergonomic-chair"; "adjustable-height"];
  d_status := "available"; d_last_used := 1746549900000
|}.

(** Regular desk, last used a day before [now0]. *)
Definition D101 : Desk := {|
  d_id := "D-101"; d_type := "regular"; d_area_id := "area-001"; d_floor := 2;
  d_zone := "Engineering Zone";
  d_location_description := Some "Wheelchair accessible, next to the lift";
  d_features := ["dual-monitors"];
  d_status := "available"; d_last_used := 1746522000000
|}.

(** Regular desk, last used two hours before [now0]. *)
Definition D102 : Desk := {|
  d_id := "D-102"; d_type := "regular"; d_area_id := "area-001"; d_floor := 2;
  d_zone := "Engineering Zone"; d_location_description := None;
  d_features := ["dual-monitors"; "ergonomic-chair"];
  d_status := "available"; d_last_used := 1746601200000
|}.

(** Regular desk in the marketing zone, in an area without sensor. *)
Definition D201 : Desk := {|
  d_id := "D-201"; d_type := "regular"; d_area_id := "area-003"; d_floor := 3;
  d_zone := "Marketing Zone"; d_location_description := None;
  d_features := [];
  d_status := "available"; d_last_used := 1746549900000
|}.

(** Occupied desk. *)
Definition D202 : Desk := {|
  d_id := "D-202"; d_type := "regular"; d_area_id := "area-003"; d_floor := 3;
  d_zone := "Marketing Zone"; d_location_description := None;
  d_features := ["dual-monitors"];
  d_status := "occupied"; d_last_used := 1746522000000
|}.

Definition desks0 : list Desk := [D304; D102; D101; D201; D202].

Definition spaces0 : list Space := [
  {| sp_id := "floor-2"; sp_name := "2nd Floor"; sp_parent_id := None |};
  {| sp_id := "floor-3"; sp_name := "3rd Floor"; sp_parent_id := None |};
  {| sp_id := "zone-eng"; sp_name := "Engineering Zone"; sp_parent_id := Some "floor-2" |};
  {| sp_id := "zone-mkt"; sp_name := "Marketing Zone"; sp_parent_id := Some "floor-3" |}
].

Definition occupancy0 : list Occupancy := [
  {| o_area_id := "area-001"; o_occupancy_percentage := 85 |};
  {| o_area_id := "area-002"; o_occupancy_percentage := 40 |}
].

Definition policies0 : list Policy := [
  {| pol_id := "POL-002" |}; {| pol_id := "POL-003" |}; {| pol_id := "POL-005" |}
].

Definition metrics0 : list Metric := [
  {| m_area_id := "area-001"; m_date := 1746403200000;
     m_utilization_rate := Some (3 # 10) |};
  {| m_area_id := "area-002"; m_date := 1746403200000;
     m_utilization_rate := Some (6 # 10) |}
].

(** The sensor of area-001 read last two hours before [now0]. *)
Definition sensors0 : list Sensor := [
  {| s_area_id := "area-001"; s_status := "active"; s_last_reading := 1746601200000 |};
  {| s_area_id := "area-002"; s_status := "active"; s_last_reading := 1746608100000 |}
].

Definition prefs0 : list EmployeePreferences := [
  {| e_employee_id := "E-1";
     e_desk_preferences := Some ["standing"; "near-window"];
     e_equipment_needs := Some ["dual-monitors"];
     e_adjacency_preferences := Some ["Marketing"];
     e_preferred_location := Some "3rd Floor";
     e_accessibility_needs := None |}
].

(** A collaborator that is down. *)
Definition chat_throws (q : string) : completion := Throws.

(** A collaborator that answers, whatever the text. *)
Definition chat_answers (q : string) : completion := Content "{}".

(** A reply that is no JSON. *)
Definition parse_throws (text : string) : option json := None.

(** A reply that parses to [v]. *)
Definition parses_to (v : json) (text : string) : option json := Some v.

(** Replies of the collaborator. *)
Definition reply_empty : json := JObj [].

Definition reply_Wheelchair : json :=
  JObj [("accessibility_needs", JStr "Wheelchair")].

Definition reply_wheelchair : json :=
  JObj [("accessibility_needs", JStr "wheelchair")].

(** [desk_preferences] is a string where an array is due. *)
Definition reply_mistyped : json :=
  JObj [("desk_preferences", JStr "standing");
        ("equipment_needs", JArr [JStr "dual-monitors"])].

Definition reply_marketing : json :=
  JObj [("adjacency_preferences", JArr [JStr "marketing"])].

(** An adjacency preference that is a number. *)
Definition reply_adjacency_number : json :=
  JObj [("adjacency_preferences", JArr [JNum 3])].

(** What the README's query ("Find me an available standing desk near the
    marketing team on the 3rd floor.") may parse to. *)
Definition reply_readme : json :=
  JObj [("desk_preferences", JArr [JStr "standing"]);
        ("equipment_needs", JArr []);
        ("preferred_days", JArr []);
        ("preferred_location", JStr "3rd Floor");
        ("accessibility_needs", JNull);
        ("adjacency_preferences", JArr [JStr "marketing team"])].

(** The preferences of employee E-1 alone, the collaborator being down. *)
Definition eff0 : Effective := effective prefs0 (Some "E-1") DEFAULT_PARSED.

(** No stored preferences; the reply asks for the marketing team. *)
Definition eff_marketing : Effective :=
  effective prefs0 None
    {| team := EmptyString; desk_preferences := []; equipment_needs := [];
       preferred_days := []; preferred_location := EmptyString;
       accessibility_needs := None;
       adjacency_preferences := [JStr "marketing"] |}.

(** The sensor of area-001 is offline. *)
Definition sensors1 : list Sensor := [
  {| s_area_id := "area-001"; s_status := "offline"; s_last_reading := 1746608100000 |};
  {| s_area_id := "area-002"; s_status := "active"; s_last_reading := 1746608100000 |}
].

(** What [parseQuery] makes of [reply_wheelchair]. *)
Definition parsed_wheelchair : Parsed :=
  {| team := EmptyString; desk_preferences := []; equipment_needs := [];
     preferred_days := []; preferred_location := EmptyString;
     accessibility_needs := Some "wheelchair";
     adjacency_preferences := [] |}.

(** A desk of an area named like a member of [Object.prototype]. *)
Definition D_constructor : Desk := {|
  d_id := "D-900"; d_type := "regular"; d_area_id := "constructor"; d_floor := 2;
  d_zone := "Engineering Zone"; d_location_description := None;
  d_features := [];
  d_status := "available"; d_last_used := 1746522000000
|}.

(** A desk of an area named [__proto__]. *)
Definition D_proto : Desk := {|
  d_id := "D-901"; d_type := "regular"; d_area_id := "__proto__"; d_floor := 2;
  d_zone := "Engineering Zone"; d_location_description := None;
  d_features := [];
  d_status := "available"; d_last_used := 1746522000000
|}.

End Fixtures.

(** * Properties *)

(** ** Strings *)

Module JsStringFacts.
Import JsString.

Lemma startsWith_app (s p : string) :
  startsWith s p = true ↔ ∃ t, s = p ++ t.
Proof.
  revert s; induction p as [|a p IH]; intros s; simpl.
  - split; eauto.
  - destruct s as [|b s].
    + split; [discriminate | intros [t Ht]; discriminate].
    + rewrite andb_true_iff, Ascii.eqb_eq, IH. split.
      * intros [-> [t ->]]. eauto.
      * intros [t Ht]. injection Ht as -> ->. eauto.
Qed.

Lemma includes_app (s sub : string) :
  includes s sub = true ↔ ∃ a b, s = a ++ sub ++ b.
Proof.
  induction s as [|c s IH]; simpl.
  - rewrite orb_false_r, startsWith_app. split.
    + intros [t Ht]. exists EmptyString, t. exact Ht.
    + intros [a [b Hab]]. destruct a; [eauto | discriminate].
  - rewrite orb_true_iff, startsWith_app, IH. split.
    + intros [[t Ht] | [a [b Hab]]].
      * exists EmptyString, t. exact Ht.
      * exists (String c a), b. simpl. by rewrite Hab.
    + intros [[|c' a] [b Hab]]; simpl in Hab.
      * left. eauto.
      * right. injection Hab as -> ->. eauto.
Qed.

Lemma toLowerCase_app (s t : string) :
  toLowerCase (s ++ t) = toLowerCase s ++ toLowerCase t.
Proof. induction s as [|c s IH]; simpl; [done | by rewrite IH]. Qed.

Lemma toLowerCase_split (s x y : string) :
  toLowerCase s = x ++ y →
  ∃ s1 s2, s = s1 ++ s2 ∧ toLowerCase s1 = x ∧ toLowerCase s2 = y.
Proof.
  revert s; induction x as [|c x IH]; intros s H; simpl in H.
  - exists EmptyString, s. done.
  - destruct s as [|c' s]; simpl in H; [discriminate|].
    injection H as Hc Hs. destruct (IH _ Hs) as (s1 & s2 & -> & H1 & H2).
    exists (String c' s1), s2. simpl. by rewrite Hc, H1, H2.
Qed.

Lemma toLowerCase_char_idemp (c : ascii) :
  toLowerCase_char (toLowerCase_char c) = toLowerCase_char c.
Proof.
  destruct c as [[] [] [] [] [] [] [] []]; reflexivity.
Qed.

Lemma toLowerCase_idemp (s : string) :
  toLowerCase (toLowerCase s) = toLowerCase s.
Proof.
  induction s as [|c s IH]; simpl; [done|].
  by rewrite toLowerCase_char_idemp, IH.
Qed.

(** Lowering both sides and looking for a substring is the search for a
    case-insensitive substring. *)
Lemma includes_lower_ci (s sub : string) :
  includes (toLowerCase s) (toLowerCase sub) = true ↔ ci_substring sub s.
Proof.
  rewrite includes_app. unfold ci_substring. split.
  - intros (a & b & H).
    apply toLowerCase_split in H as (s1 & s2 & -> & H1 & H2).
    apply toLowerCase_split in H2 as (m & s3 & -> & H2 & H3).
    exists s1, m, s3. done.
  - intros (a & m & b & -> & H).
    exists (toLowerCase a), (toLowerCase b).
    by rewrite !toLowerCase_app, H.
Qed.

Lemma length_toLowerCase (s : string) :
  String.length (toLowerCase s) = String.length s.
Proof. induction s as [|c s IH]; simpl; [done | by rewrite IH]. Qed.

Lemma append_inj_length (u v u' v' : string) :
  String.length u = String.length u' → u ++ v = u' ++ v' → u = u' ∧ v = v'.
Proof.
  revert u'; induction u as [|c u IH]; intros [|c' u']; simpl; intros L E;
    try done.
  injection E as -> E. injection L as L.
  destruct (IH _ L E) as [-> ->]. done.
Qed.

(** A substring of a lowered string that is found as it stands is lower
    case itself, and so a case-insensitive substring. *)
Lemma includes_lower_raw_ci (s sub : string) :
  includes (toLowerCase s) sub = true → ci_substring sub s.
Proof.
  intros H. apply includes_lower_ci.
  apply includes_app in H as (a & b & H).
  assert (toLowerCase sub = sub) as ->; [|apply includes_app; eauto].
  pose proof (f_equal toLowerCase H) as H'.
  rewrite toLowerCase_idemp, H, !toLowerCase_app in H'.
  apply append_inj_length in H' as [_ H'];
    [|by rewrite length_toLowerCase].
  apply append_inj_length in H' as [H' _];
    [|by rewrite length_toLowerCase].
  done.
Qed.

End JsStringFacts.

(** ** Sorting *)

Module SortFacts.
Import Matcher.
Local Open Scope list_scope.

Section consistent.
Context {A : Type}.
Variable compare : A → A → Q.

Abbreviation before := (before compare).

Lemma insert_by_Permutation (x : A) (l : list A) :
  Permutation (insert_by compare x l) (x :: l).
Proof.
  induction l as [|y l IH]; simpl; [done|].
  destruct (Qle_bool (compare x y) 0); [done|].
  rewrite IH. apply perm_swap.
Qed.

Lemma Array_sort_Permutation (l : list A) :
  Permutation (Array_sort compare l) l.
Proof.
  induction l as [|x l IH]; simpl; [done|].
  unfold Array_sort in *. simpl.
  rewrite insert_by_Permutation. by constructor.
Qed.

(** A consistent comparator orders any two elements, transitively. *)
Hypothesis before_total : ∀ a b, before a b ∨ before b a.
Hypothesis before_trans : ∀ a b c, before a b → before b c → before a c.

Lemma insert_by_sorted (x : A) (l : list A) :
  StronglySorted before l → StronglySorted before (insert_by compare x l).
Proof.
  induction 1 as [|y l Hs IH Hy]; simpl.
  - repeat constructor.
  - destruct (Qle_bool (compare x y) 0) eqn:E.
    + apply Qle_bool_iff in E.
      constructor; [by constructor|].
      constructor; [exact E|].
      eapply Forall_impl; [exact Hy|]. intros z Hz. by eapply before_trans.
    + assert (before y x) as Hyx.
      { destruct (before_total x y) as [Hxy|]; [|done].
        apply Qle_bool_iff in Hxy. congruence. }
      constructor; [exact IH|].
      eapply Permutation_Forall; [symmetry; apply insert_by_Permutation|].
      by constructor.
Qed.

Lemma Array_sort_sorted (l : list A) :
  StronglySorted before (Array_sort compare l).
Proof.
  induction l as [|x l IH]; [constructor|].
  unfold Array_sort in *. simpl. by apply insert_by_sorted.
Qed.

End consistent.

Lemma StronglySorted_split {A} (R : A → A → Prop) (l l1 l2 l3 : list A) (a b : A) :
  StronglySorted R l → l = l1 ++ a :: l2 ++ b :: l3 → R a b.
Proof.
  intros Hs ->. induction l1 as [|x l1 IH]; simpl in Hs.
  - inversion Hs as [|? ? _ Hall]; subst.
    rewrite Forall_app, Forall_cons in Hall. tauto.
  - inversion Hs; subst. auto.
Qed.

End SortFacts.

(** ** The matcher *)

Module MatcherFacts.
Import JsString JsStringFacts Nlp Matcher SortFacts.
Local Open Scope list_scope.

(** *** Adjacency *)

Lemma isAdjacent_true (prefs : list json) (d : Desk) :
  isAdjacent prefs d = Some true → adjacency_preferred prefs d.
Proof.
  induction prefs as [|v prefs IH]; simpl; [discriminate|].
  destruct v as [| | |pref| |]; try discriminate.
  destruct (includes _ _) eqn:E.
  - intros _. exists pref. split; [by left | by apply includes_lower_ci].
  - intros H. destruct (IH H) as (p & Hin & Hp). exists p. split; [by right | done].
Qed.

Lemma isAdjacent_false (prefs : list json) (d : Desk) :
  isAdjacent prefs d = Some false → ¬ adjacency_preferred prefs d.
Proof.
  induction prefs as [|v prefs IH]; simpl.
  - intros _ (p & [] & _).
  - destruct v as [| | |pref| |]; try discriminate.
    destruct (includes _ _) eqn:E; [discriminate|].
    intros H (p & [Hp | Hin] & Hci).
    + injection Hp as ->. apply includes_lower_ci in Hci. congruence.
    + apply (IH H). exists p. done.
Qed.

Lemma isAdjacent_total (prefs : list json) (d : Desk) :
  all_strings prefs → ∃ b, isAdjacent prefs d = Some b.
Proof.
  induction prefs as [|v prefs IH]; simpl; intros Hs; [eauto|].
  destruct (Hs v) as [s ->]; [by left|].
  destruct (includes _ _); [eauto|].
  apply IH. intros w Hw. apply Hs. by right.
Qed.

Lemma isAdjacent_nil (d : Desk) : isAdjacent [] d = Some false.
Proof. reflexivity. Qed.

(** The loop is a stable two-way split of the candidates, when it does not
    throw. *)
Lemma partition_loop_split (prefs : list json) (cands adj other A O : list Desk) :
  partition_loop prefs cands adj other = Some (A, O) →
  A = adj ++ List.filter (adjacent_true prefs) cands ∧
  O = other ++ List.filter (fun d => negb (adjacent_true prefs d)) cands.
Proof.
  revert adj other; induction cands as [|d cands IH]; simpl; intros adj other H.
  - injection H as <- <-. by rewrite !app_nil_r.
  - destruct (isAdjacent prefs d) as [b|] eqn:E; simpl in H; [|discriminate H].
    assert (adjacent_true prefs d = b) as ->
      by (unfold adjacent_true; rewrite E; by destruct b).
    destruct b; simpl; destruct (IH _ _ H) as [-> ->]; by rewrite <- app_assoc.
Qed.

Lemma partition_loop_nil (cands adj other : list Desk) :
  partition_loop [] cands adj other = Some (adj, other ++ cands).
Proof.
  revert other; induction cands as [|d cands IH]; intros other; simpl.
  - by rewrite app_nil_r.
  - rewrite IH. by rewrite <- app_assoc.
Qed.

Lemma partition_loop_total (prefs : list json) (cands adj other : list Desk) :
  (∀ d, In d cands → ∃ b, isAdjacent prefs d = Some b) →
  ∃ A O, partition_loop prefs cands adj other = Some (A, O).
Proof.
  revert adj other; induction cands as [|d cands IH]; simpl; intros adj other H;
    [eauto|].
  destruct (H d) as [b ->]; [by left|]. simpl.
  destruct b; apply IH; intros; apply H; by right.
Qed.

Lemma partition_loop_inv_adjacent (prefs : list json) (cands adj other A O : list Desk) :
  partition_loop prefs cands adj other = Some (A, O) →
  ∀ d, In d cands → ∃ b, isAdjacent prefs d = Some b.
Proof.
  revert adj other; induction cands as [|d cands IH]; simpl; intros adj other H x;
    [done|].
  destruct (isAdjacent prefs d) as [b|] eqn:E; simpl in H; [|discriminate].
  intros [<- | Hx]; [eauto|].
  destruct b; eapply IH; eauto.
Qed.

(** *** The comparator is consistent *)

Section comparator.
Variable metricsData : list Metric.
Variable eff : Effective.

Abbreviation compare := (compare metricsData eff).
Abbreviation utilization := (utilization metricsData).

(** The three keys, in their order. *)
Lemma compare_before (a b : Desk) :
  before compare a b ↔
  (matchCount eff b < matchCount eff a)%nat ∨
  (matchCount eff a = matchCount eff b ∧
   (d_last_used a < d_last_used b ∨
    (d_last_used a = d_last_used b ∧ (utilization a <= utilization b)%Q))).
Proof.
  unfold before, Matcher.compare.
  destruct (Z.eqb_spec (Z.of_nat (matchCount eff b)) (Z.of_nat (matchCount eff a)))
    as [Hm|Hm]; simpl.
  - destruct (Z.eqb_spec (d_last_used a - d_last_used b) 0) as [Hr|Hr]; simpl.
    + split.
      * intros H. right. split; [lia|]. right. split; [lia|]. lra.
      * intros [?|[_ [?|[_ ?]]]]; [lia|lia|lra].
    + change 0%Q with (inject_Z 0). rewrite <- Zle_Qle. split.
      * intros H. right. split; [lia|]. left. lia.
      * intros [?|[_ [?|[? _]]]]; lia.
  - change 0%Q with (inject_Z 0). rewrite <- Zle_Qle. split.
    + intros H. left. lia.
    + intros [?|[? _]]; lia.
Qed.

Lemma compare_total (a b : Desk) : before compare a b ∨ before compare b a.
Proof.
  rewrite !compare_before.
  destruct (lt_eq_lt_dec (matchCount eff a) (matchCount eff b)) as [[?|?]|?];
    [right; left; lia | | left; left; lia].
  destruct (Z.lt_trichotomy (d_last_used a) (d_last_used b)) as [?|[?|?]];
    [left; right; split; [done | left; lia] | | right; right; split; [done | left; lia] ].
  destruct (Qlt_le_dec (utilization b) (utilization a)) as [Hlt|Hle].
  - right. right. split; [done|]. right. split; [done|]. by apply Qlt_le_weak.
  - left. right. split; [done|]. right. done.
Qed.

Lemma compare_trans (a b c : Desk) :
  before compare a b → before compare b c → before compare a c.
Proof.
  rewrite !compare_before.
  intros [?|[? [?|[? ?]]]] [?|[? [?|[? ?]]]];
    try (left; lia);
    try (right; split; [lia|]; left; lia).
  right. split; [lia|]. right. split; [lia|]. by eapply Qle_trans.
Qed.

Lemma sorter_sorted (arr : list Desk) :
  StronglySorted (before compare) (sorter metricsData eff arr).
Proof. apply Array_sort_sorted; [apply compare_total | apply compare_trans]. Qed.

Lemma sorter_Permutation (arr : list Desk) :
  Permutation (sorter metricsData eff arr) arr.
Proof. apply Array_sort_Permutation. Qed.

End comparator.

(** *** Hours *)

Lemma hours_lt_4 (ms : Z) : Qltb (hours ms) 4 = true ↔ ms < 4 * (1000 * 60 * 60).
Proof.
  unfold Qltb, hours, Qle_bool, Qdiv, Qmult, Qinv, inject_Z. simpl.
  rewrite negb_true_iff, Z.leb_gt. lia.
Qed.

Lemma hours_gt_1 (ms : Z) : Qltb 1 (hours ms) = true ↔ 1000 * 60 * 60 < ms.
Proof.
  unfold Qltb, hours, Qle_bool, Qdiv, Qmult, Qinv, inject_Z. simpl.
  rewrite negb_true_iff, Z.leb_gt. lia.
Qed.

(** *** The lookup maps *)

Lemma occMap_fold_None (l : list Occupancy) (m0 : gmap string Q) (a : string) :
  m0 !! a = None → (∀ o, In o l → o_area_id o ≠ a) →
  fold_left
    (fun m o =>
       if String.eqb (o_area_id o) "__proto__" then m
       else <[o_area_id o := o_occupancy_percentage o]> m) l m0 !! a = None.
Proof.
  revert m0; induction l as [|o l IH]; intros m0 H0 Hl; simpl; [done|].
  apply IH; [|intros; apply Hl; by right].
  destruct (String.eqb _ _); [done|].
  rewrite lookup_insert_ne; [done | apply Hl; by left].
Qed.

Lemma occMap_fold_Some (l : list Occupancy) (m0 : gmap string Q) (a : string) (p : Q) :
  fold_left
    (fun m o =>
       if String.eqb (o_area_id o) "__proto__" then m
       else <[o_area_id o := o_occupancy_percentage o]> m) l m0 !! a = Some p
  → m0 !! a = Some p
    ∨ ∃ o, In o l ∧ o_area_id o = a ∧ o_occupancy_percentage o = p.
Proof.
  revert m0; induction l as [|o l IH]; intros m0; simpl; [by left|].
  intros H. apply IH in H as [H|(o' & ? & ? & ?)]; [|right; eauto].
  destruct (String.eqb _ _); [by left|].
  apply lookup_insert_Some in H as [[? ?]|[? ?]]; [right|left]; eauto.
Qed.

(** An area without an entry in the snapshot has no occupancy value. *)
Lemma occMap_None (occData : list Occupancy) (a : string) :
  (∀ o, In o occData → o_area_id o ≠ a) → occMap occData !! a = None.
Proof. intros H. unfold occMap. by apply occMap_fold_None. Qed.

Lemma occMap_Some (occData : list Occupancy) (a : string) (p : Q) :
  occMap occData !! a = Some p →
  ∃ o, In o occData ∧ o_area_id o = a ∧ o_occupancy_percentage o = p.
Proof.
  unfold occMap. intros H. apply occMap_fold_Some in H as [H|H]; [|done].
  by rewrite lookup_empty in H.
Qed.



Lemma metricsMap_fold_origin (l : list Metric) (m0 : gmap string Metric)
    (a : string) (ex : Metric) :
  fold_left
    (fun mm m =>
       match mm !! m_area_id m with
       | None =>
           if inherited (m_area_id m) then mm else <[m_area_id m := m]> mm
       | Some existing =>
           if m_date existing <? m_date m then <[m_area_id m := m]> mm else mm
       end) l m0 !! a = Some ex →
  m0 !! a = Some ex ∨ (In ex l ∧ m_area_id ex = a).
Proof.
  revert m0; induction l as [|m l IH]; simpl; intros m0 H; [by left|].
  apply IH in H as [H|[? ?]]; [|right; eauto].
  destruct (m0 !! m_area_id m) as [existing|] eqn:E.
  - destruct (m_date existing <? m_date m); [|by left].
    apply lookup_insert_Some in H as [[<- <-]|[_ H]]; [right; eauto | by left].
  - destruct (inherited (m_area_id m)); [by left|].
    apply lookup_insert_Some in H as [[<- <-]|[_ H]]; [right; eauto | by left].
Qed.

Lemma metricsMap_fold_keep (l : list Metric) (m0 : gmap string Metric) (m : Metric) :
  m0 !! m_area_id m = Some m →
  (∀ m', In m' l → m_area_id m' = m_area_id m → m_date m' ≤ m_date m) →
  fold_left
    (fun mm m =>
       match mm !! m_area_id m with
       | None =>
           if inherited (m_area_id m) then mm else <[m_area_id m := m]> mm
       | Some existing =>
           if m_date existing <? m_date m then <[m_area_id m := m]> mm else mm
       end) l m0 !! m_area_id m = Some m.
Proof.
  revert m0; induction l as [|x l IH]; simpl; intros m0 H0 Hl; [done|].
  apply IH; [|intros; apply Hl; [by right | done]].
  destruct (decide (m_area_id x = m_area_id m)) as [Ha|Ha].
  - rewrite Ha, H0.
    assert (m_date x ≤ m_date m) by (apply Hl; [by left | done]).
    destruct (Z.ltb_spec (m_date m) (m_date x)); [lia | done].
  - destruct (m0 !! m_area_id x) as [existing|];
      [destruct (_ <? _)|destruct (inherited _)]; by rewrite ?lookup_insert_ne.
Qed.

(** The record the metrics map keeps for an area: the one of the latest
    date, the first of them in the data when several share that date. *)
Lemma metricsMap_latest (earlier later : list Metric) (m : Metric) :
  inherited (m_area_id m) = false →
  (∀ m', In m' earlier → m_area_id m' = m_area_id m → m_date m' < m_date m) →
  (∀ m', In m' later → m_area_id m' = m_area_id m → m_date m' ≤ m_date m) →
  metricsMap (earlier ++ m :: later) !! m_area_id m = Some m.
Proof.
  intros Hown Hearlier Hlater.
  unfold metricsMap. rewrite fold_left_app. simpl.
  apply metricsMap_fold_keep; [|done].
  destruct (fold_left _ earlier ∅ !! m_area_id m) as [existing|] eqn:E.
  - apply metricsMap_fold_origin in E as [E|[Hin Ha]];
      [by rewrite lookup_empty in E|].
    assert (m_date existing < m_date m) by by apply Hearlier.
    destruct (Z.ltb_spec (m_date existing) (m_date m)); [|lia].
    apply lookup_insert_eq.
  - rewrite Hown. apply lookup_insert_eq.
Qed.

(** No record is kept for an area named like a member of
    [Object.prototype]. *)
Lemma metricsMap_inherited (metricsData : list Metric) (a : string) :
  inherited a = true → metricsMap metricsData !! a = None.
Proof.
  intros Ha. unfold metricsMap.
  generalize (lookup_empty (M:=gmap string) (A:=Metric) a).
  generalize (∅ : gmap string Metric) as m0.
  induction metricsData as [|m l IH]; intros m0 H0; simpl; [done|].
  apply IH.
  destruct (decide (m_area_id m = a)) as [->|Hne].
  - by rewrite H0, Ha.
  - destruct (m0 !! m_area_id m) as [existing|];
      [destruct (_ <? _)|destruct (inherited (m_area_id m))];
      by rewrite ?lookup_insert_ne.
Qed.

Lemma utilization_latest (earlier later : list Metric) (m : Metric) (d : Desk) :
  d_area_id d = m_area_id m →
  inherited (m_area_id m) = false →
  (∀ m', In m' earlier → m_area_id m' = m_area_id m → m_date m' < m_date m) →
  (∀ m', In m' later → m_area_id m' = m_area_id m → m_date m' ≤ m_date m) →
  utilization (earlier ++ m :: later) d = default 1%Q (m_utilization_rate m).
Proof.
  intros Harea Hown Hearlier Hlater. unfold utilization.
  by rewrite Harea, metricsMap_latest.
Qed.

Lemma utilization_inherited (metricsData : list Metric) (d : Desk) :
  inherited (d_area_id d) = true → utilization metricsData d = 1%Q.
Proof. intros H. unfold utilization. by rewrite metricsMap_inherited. Qed.

(** *** The filter and the pipeline behind it *)

Section pipeline.
Variable desksData : list Desk.
Variable occData : list Occupancy.
Variable spacesData : list Space.
Variable policiesData : list Policy.
Variable metricsData : list Metric.
Variable sensorsData : list Sensor.
Variable now : Z.

Abbreviation passes := (passes occData spacesData policiesData sensorsData now).
Abbreviation candidates :=
  (candidates desksData occData spacesData policiesData sensorsData now).
Abbreviation cascade := (cascade occData spacesData policiesData sensorsData now).
Abbreviation rank :=
  (rank desksData occData spacesData policiesData metricsData sensorsData now).

(** The callback is the conjunction of the nine tests, in the order of the
    source. *)
Lemma passes_cascade (eff : Effective) (d : Desk) :
  passes eff d = forallb (fun p => p d) (cascade eff).
Proof.
  unfold Matcher.passes, Matcher.cascade, forallb.
  unfold availability, deskType, standingPolicy, equipment, location, capacity,
    sanitization, accessibility, sensorHealth.
  destruct (String.eqb (d_status d) "available"); simpl; [|done].
  destruct (finalDeskType (deskPreferences eff)) as [t|];
    [destruct (strict_eq_str t (d_type d)); simpl; [|done] | simpl].
  all: destruct (String.eqb (d_type d) "standing" && _); simpl; [done|].
  all: replace (existsb (fun need => negb (includes_val (d_features d) need)) (equipNeeds eff))
      with (negb (forallb (fun need => includes_val (d_features d) need) (equipNeeds eff)))
      by (induction (equipNeeds eff) as [|n l IHl]; simpl; [done|];
          rewrite <- IHl; by destruct (includes_val _ _), (forallb _ _)).
  all: destruct (forallb _ (equipNeeds eff)); simpl; [|done].
  all: destruct (location_passes _ _ _); simpl; [|done].
  all: destruct (found (capPolicy policiesData) && _); simpl; [done|].
  all: destruct (found (sanPolicy policiesData) && _); simpl; [done|].
  all: destruct (nonempty (accessibilityNeed eff) && _); simpl; [done|].
  all: destruct (sensor_read sensorsData (d_area_id d)) as [|sensor|[]]; try done.
  all: destruct (String.eqb (status sensor) "active"); simpl; try done.
Qed.

Lemma candidates_In (eff : Effective) (d : Desk) :
  In d (candidates eff) ↔ In d desksData ∧ passes eff d = true.
Proof. apply filter_In. Qed.

(** What [rank] returns: the two sorted halves of the stable split. *)
Lemma rank_inv (eff : Effective) (l : list Desk) :
  rank eff = Some l →
  l = sorter metricsData eff
        (List.filter (adjacent_true (adjPrefs eff)) (candidates eff))
      ++ sorter metricsData eff
        (List.filter (fun d => negb (adjacent_true (adjPrefs eff) d)) (candidates eff))
  ∧ ∀ d, In d (candidates eff) → ∃ b, isAdjacent (adjPrefs eff) d = Some b.
Proof.
  unfold Matcher.rank.
  destruct (partition_loop _ _ _ _) as [[A O]|] eqn:E; simpl; [|discriminate].
  intros [= <-]. split.
  - by destruct (partition_loop_split _ _ _ _ _ _ E) as [-> ->].
  - eapply partition_loop_inv_adjacent, E.
Qed.

Lemma rank_total (eff : Effective) :
  (∀ d, In d (candidates eff) → ∃ b, isAdjacent (adjPrefs eff) d = Some b) →
  ∃ l, rank eff = Some l.
Proof.
  intros H. unfold Matcher.rank.
  destruct (partition_loop_total (adjPrefs eff) (candidates eff) [] [] H)
    as (A & O & ->).
  simpl. eauto.
Qed.

Lemma rank_Permutation (eff : Effective) (l : list Desk) :
  rank eff = Some l → Permutation l (candidates eff).
Proof.
  intros H. apply rank_inv in H as [-> _].
  rewrite !sorter_Permutation.
  induction (candidates eff) as [|d c IH]; simpl; [done|].
  destruct (adjacent_true _ d); simpl.
  - by constructor.
  - by rewrite <- Permutation_middle, IH.
Qed.

Lemma sorted_ranked (eff : Effective) (part : list Desk) :
  StronglySorted (Matcher.before (Matcher.compare metricsData eff)) part →
  ranked metricsData eff part.
Proof.
  intros Hs l1 A l2 B l3 E.
  pose proof (StronglySorted_split _ _ _ _ _ _ _ Hs E) as H.
  apply compare_before in H. split; [lia|]. intros Hm.
  destruct H as [?|[_ [?|[? ?]]]]; [lia | split; lia | split; [lia | done]].
Qed.

(** The two parts of a result. *)
Lemma rank_parts (eff : Effective) (l : list Desk) :
  rank eff = Some l →
  ∃ adjPart otherPart,
    in_two_parts (adjPrefs eff) l adjPart otherPart
    ∧ Permutation (adjPart ++ otherPart) (candidates eff)
    ∧ ranked metricsData eff adjPart ∧ ranked metricsData eff otherPart.
Proof.
  intros H. pose proof (rank_Permutation _ _ H) as Hperm.
  apply rank_inv in H as [-> Hadj].
  eexists _, _. split; [split; [reflexivity|split]|split; [done|split]].
  - apply List.Forall_forall. intros d Hd.
    eapply Permutation_in in Hd; [|apply sorter_Permutation].
    apply filter_In in Hd as [_ Hd]. unfold adjacent_true in Hd.
    apply isAdjacent_true. by destruct (isAdjacent _ d) as [[]|].
  - apply List.Forall_forall. intros d Hd.
    eapply Permutation_in in Hd; [|apply sorter_Permutation].
    apply filter_In in Hd as [Hin Hd]. unfold adjacent_true in Hd.
    apply isAdjacent_false. destruct (Hadj d Hin) as [b Hb].
    rewrite Hb in *. by destruct b.
  - apply sorted_ranked, sorter_sorted.
  - apply sorted_ranked, sorter_sorted.
Qed.

Lemma rank_In_passes (eff : Effective) (l : list Desk) (d : Desk) :
  rank eff = Some l → In d l → In d desksData ∧ passes eff d = true.
Proof.
  intros H Hd. apply candidates_In.
  eapply Permutation_in; [apply rank_Permutation, H | done].
Qed.

(** Each of the nine tests holds of a desk that passes. *)
Lemma passes_true (eff : Effective) (d : Desk) :
  passes eff d = true ↔
  availability d = true ∧ deskType eff d = true ∧ standingPolicy eff d = true
  ∧ equipment eff d = true ∧ location spacesData eff d = true
  ∧ capacity occData policiesData d = true ∧ sanitization policiesData now d = true
  ∧ accessibility eff d = true ∧ sensorHealth sensorsData now d = true.
Proof.
  rewrite passes_cascade. unfold Matcher.cascade, forallb.
  rewrite !andb_true_iff. tauto.
Qed.

End pipeline.

Lemma found_find {A} (f : A → bool) (l : list A) :
  found (List.find f l) = true ↔ ∃ x, In x l ∧ f x = true.
Proof.
  induction l as [|x l IH]; simpl.
  - split; [discriminate | intros (? & [] & _)].
  - destruct (f x) eqn:E; simpl.
    + split; [eauto | done].
    + rewrite IH. split.
      * intros (y & ? & ?). eauto.
      * intros (y & [<- | ?] & ?); [congruence | eauto].
Qed.

Lemma find_first {A} (f : A → bool) (l1 l2 : list A) (x : A) :
  f x = true → (∀ y, In y l1 → f y = false) →
  List.find f (l1 ++ x :: l2) = Some x.
Proof.
  intros Hx. induction l1 as [|y l1 IH]; simpl; intros H.
  - by rewrite Hx.
  - rewrite (H y) by (by left). apply IH. intros; apply H; by right.
Qed.

Lemma policy_present (policiesData : list Policy) (id : string) :
  found (List.find (fun p => String.eqb (pol_id p) id) policiesData) = true
  ↔ ∃ p, In p policiesData ∧ pol_id p = id.
Proof.
  rewrite found_find. split; intros (p & ? & H); exists p;
    (split; [done|]); by apply String.eqb_eq.
Qed.

Lemma forallb_Permutation {A} (x : A) (ps qs : list (A → bool)) :
  Permutation ps qs → forallb (fun p => p x) ps = forallb (fun p => p x) qs.
Proof.
  induction 1 as [|p ps qs _ IH|p q ps|ps qs rs _ IH1 _ IH2]; simpl.
  - done.
  - by rewrite IH.
  - by destruct (p x), (q x).
  - by rewrite IH1.
Qed.

(** In a list made of a part where [P] holds throughout and a part where it
    holds nowhere, nothing without [P] stands before something with [P]. *)
Lemma split_order {A} (P : A → Prop) (front back l1 l2 l3 : list A) (a b : A) :
  Forall P front → Forall (fun x => ¬ P x) back →
  front ++ back = l1 ++ a :: l2 ++ b :: l3 → P b → P a.
Proof.
  intros Hf Hb. revert l1. induction Hf as [|x front Hx Hf IH]; simpl; intros l1 E Pb.
  - exfalso. rewrite List.Forall_forall in Hb. apply (Hb b); [|done].
    rewrite E. apply in_or_app. right. right. apply in_or_app. right. by left.
  - destruct l1 as [|y l1]; simpl in E; injection E as -> E; [done|]. eauto.
Qed.

(** The sensor test does not look at the age of the reading. *)
Lemma sensorHealth_ignores_age (sensorsData : list Sensor) (now now' : Z) (d : Desk) :
  sensorHealth sensorsData now d = sensorHealth sensorsData now' d.
Proof. reflexivity. Qed.

(** A desk that passes the accessibility test for a need that is set has the
    need among its features or, without regard to case, in its description. *)
Lemma accessibility_sound (eff : Effective) (d : Desk) :
  nonempty (accessibilityNeed eff) = true →
  accessibility eff d = true →
  In (accessibilityNeed eff) (d_features d)
  ∨ ci_substring (accessibilityNeed eff)
      (default EmptyString (d_location_description d)).
Proof.
  unfold accessibility. intros ->. simpl.
  rewrite negb_true_iff, andb_false_iff, !negb_false_iff.
  intros [H|H].
  - left. apply existsb_exists in H as (f & Hin & Hf).
    apply String.eqb_eq in Hf. by subst.
  - right. by apply includes_lower_raw_ci.
Qed.

(** A desk that passes matches every equipment need. *)
Lemma passes_matchCount
    (occData : list Occupancy) (spacesData : list Space) (policiesData : list Policy)
    (sensorsData : list Sensor) (now : Z) (eff : Effective) (d : Desk) :
  passes occData spacesData policiesData sensorsData now eff d = true →
  matchCount eff d = length (equipNeeds eff).
Proof.
  intros Hp. apply passes_true in Hp as (_ & _ & _ & Heq & _).
  unfold equipment in Heq. rewrite forallb_forall in Heq.
  unfold matchCount. f_equal.
  induction (equipNeeds eff) as [|n ns IH]; simpl; [done|].
  rewrite (Heq n) by (by left). f_equal. apply IH.
  intros; apply Heq; by right.
Qed.

(** A result of [matchDesks] is a result of [rank] on the merged preferences. *)
Lemma matchDesks_inv desksData occData spacesData prefsData policiesData
    metricsData sensorsData chat JSON_parse now employeeId query (l : list Desk) :
  matchDesks desksData occData spacesData prefsData policiesData metricsData
    sensorsData chat JSON_parse now employeeId query = Some l →
  ∃ parsed, parseQuery chat JSON_parse query = Some parsed
    ∧ rank desksData occData spacesData policiesData metricsData sensorsData now
        (effective prefsData employeeId parsed) = Some l.
Proof.
  unfold matchDesks. destruct (parseQuery _ _ _) as [parsed|]; simpl; [eauto|done].
Qed.

End MatcherFacts.

(** * The claims *)

Import JsString JsStringFacts Nlp Matcher SortFacts MatcherFacts.
Local Open Scope list_scope.

(** ** C1: sensor recency *)

(** C1. The sensor of area-001 is active and its last reading is two hours
    old, yet desk D-101 of that area is returned: the age is overwritten with
    0 before it is compared with 1, so that the recency test never rejects. *)
Theorem C1_stale_sensor_desk_returned :
  let sensors := [ {| s_area_id := "area-001"; s_status := "active";
                      s_last_reading := Fixtures.now0 - 2 * (1000 * 60 * 60) |} ] in
  sensorMap sensors !! d_area_id Fixtures.D101
    = Some {| status := "active";
              lastReading := Fixtures.now0 - 2 * (1000 * 60 * 60) |}
  ∧ Qltb 1 (hours (Fixtures.now0 - (Fixtures.now0 - 2 * (1000 * 60 * 60)))) = true
  ∧ sensorHealth sensors Fixtures.now0 Fixtures.D101 = true
  ∧ matchDesks [Fixtures.D101] [] [] [] [] [] sensors
      Fixtures.chat_throws Fixtures.parse_throws Fixtures.now0 None "any desk"
    = Some [Fixtures.D101].
Proof. vm_compute. repeat split; reflexivity. Qed.

(** A fenced reply loses its fences, with or without the language tag and
    the carriage returns. *)
Example strip_fences_json :
  strip_fences ("```json" ++ String LF ("{}" ++ String LF "```")) = "{}"
  ∧ strip_fences ("```" ++ String CR (String LF ("{}" ++ String CR (String LF "```"))))
    = "{}"
  ∧ strip_fences "{}" = "{}"
  ∧ JsString.trim (String LF "  {} ") = "{}".
Proof. repeat split; reflexivity. Qed.

(** The request of the README returns desk D-304 alone. *)
Example readme_request :
  matchDesks Fixtures.desks0 Fixtures.occupancy0 Fixtures.spaces0 Fixtures.prefs0
    Fixtures.policies0 Fixtures.metrics0 Fixtures.sensors0
    Fixtures.chat_answers (Fixtures.parses_to Fixtures.reply_readme) Fixtures.now0
    None "Find me an available standing desk near the marketing team on the 3rd floor."
  = Some [Fixtures.D304].
Proof. vm_compute. reflexivity. Qed.

(** ** C2: desk-type resolution *)

Lemma includes_val_type_names (v : json) :
  includes_val ["standing"; "regular"] v = true
  ↔ v = JStr "standing" ∨ v = JStr "regular".
Proof.
  destruct v as [| | |s| |]; simpl;
    try (split; [discriminate | intros [?|?]; discriminate]).
  rewrite orb_false_r, orb_true_iff, !String.eqb_eq. split.
  - intros [-> | ->]; auto.
  - intros [[= ->] | [= ->]]; auto.
Qed.

(** C2, as the claim has it, fails: [regular] written before [standing] is
    the enforced type. *)
Lemma C2_counterexample :
  In (JStr "standing") [JStr "regular"; JStr "standing"]
  ∧ finalDeskType [JStr "regular"; JStr "standing"] = Some (JStr "regular")
  ∧ finalDeskType [JStr "regular"; JStr "standing"] ≠ Some (JStr "standing").
Proof. split; [right; by left | split; [reflexivity | discriminate]]. Qed.

(** C2, amended. The enforced desk type is the first entry of the merged
    desk-preference list that is [standing] or [regular]: with [standing] and
    no [regular] in the list it is [standing], with [regular] and no
    [standing] it is [regular], and with neither no type is enforced and the
    desk-type test passes desks of any type. *)
Theorem C2_first_type_token_wins (prefs : list json) :
  (∀ l1 t l2,
      prefs = l1 ++ JStr t :: l2 →
      t = "standing" ∨ t = "regular" →
      ¬ In (JStr "standing") l1 → ¬ In (JStr "regular") l1 →
      finalDeskType prefs = Some (JStr t))
  ∧ (In (JStr "standing") prefs → ¬ In (JStr "regular") prefs →
     finalDeskType prefs = Some (JStr "standing"))
  ∧ (In (JStr "regular") prefs → ¬ In (JStr "standing") prefs →
     finalDeskType prefs = Some (JStr "regular"))
  ∧ (¬ In (JStr "standing") prefs → ¬ In (JStr "regular") prefs →
     finalDeskType prefs = None
     ∧ ∀ eff d, deskPreferences eff = prefs → deskType eff d = true).
Proof.
  unfold finalDeskType. repeat split.
  - intros l1 t l2 -> Ht Hs Hr. apply find_first.
    + apply includes_val_type_names. destruct Ht as [-> | ->]; auto.
    + intros y Hy. destruct (includes_val _ y) eqn:E; [|done].
      apply includes_val_type_names in E as [-> | ->]; contradiction.
  - intros Hs Hr.
    destruct (List.find _ prefs) as [v|] eqn:E.
    + apply find_some in E as [Hin E].
      apply includes_val_type_names in E as [-> | ->]; [done | by destruct Hr].
    + apply find_none with (x := JStr "standing") in E; [discriminate | done].
  - intros Hr Hs.
    destruct (List.find _ prefs) as [v|] eqn:E.
    + apply find_some in E as [Hin E].
      apply includes_val_type_names in E as [-> | ->]; [by destruct Hs | done].
    + apply find_none with (x := JStr "regular") in E; [discriminate | done].
  - destruct (List.find _ prefs) as [v|] eqn:E; [|done].
    apply find_some in E as [Hin E].
    apply includes_val_type_names in E as [-> | ->]; contradiction.
  - intros eff d Heff. unfold deskType, finalDeskType. rewrite Heff.
    destruct (List.find _ prefs) as [v|] eqn:E; [|done].
    apply find_some in E as [Hin E].
    apply includes_val_type_names in E as [-> | ->]; contradiction.
Qed.

Lemma C2_first_type_token_wins_witness :
  finalDeskType [JStr "near-window"; JStr "regular"; JStr "standing"]
    = Some (JStr "regular")
  ∧ finalDeskType [JStr "near-window"; JStr "standing"] = Some (JStr "standing")
  ∧ finalDeskType [JStr "regular"; JStr "quiet"] = Some (JStr "regular")
  ∧ finalDeskType [JStr "near-window"] = None.
Proof.
  split; [|split; [|split]].
  - apply (proj1 (C2_first_type_token_wins _) [JStr "near-window"] "regular"
             [JStr "standing"]).
    + reflexivity.
    + right. reflexivity.
    + simpl. intros [H|[]]. discriminate H.
    + simpl. intros [H|[]]. discriminate H.
  - apply (proj1 (proj2 (C2_first_type_token_wins _))).
    + simpl. right. left. reflexivity.
    + simpl. intros [H|[H|[]]]; discriminate H.
  - apply (proj1 (proj2 (proj2 (C2_first_type_token_wins _)))).
    + simpl. left. reflexivity.
    + simpl. intros [H|[H|[]]]; discriminate H.
  - apply (proj2 (proj2 (proj2 (C2_first_type_token_wins _)))).
    + simpl. intros [H|[]]. discriminate H.
    + simpl. intros [H|[]]. discriminate H.
Defined.

(** ** C3: accessibility *)

(** C3. The need "Wheelchair" occurs in the description of D-101 as a
    case-insensitive substring, yet the desk fails the accessibility test and
    is not returned: the description is lowered, the need is not.  With the
    need in lower case the same desk is returned. *)
Theorem C3_uppercase_need_rejected :
  let run reply :=
    matchDesks [Fixtures.D101] [] [] [] [] [] []
      Fixtures.chat_answers (Fixtures.parses_to reply) Fixtures.now0 None
      "a desk with wheelchair access" in
  let eff := effective [] None
               {| team := EmptyString; desk_preferences := []; equipment_needs := [];
                  preferred_days := []; preferred_location := EmptyString;
                  accessibility_needs := Some "Wheelchair";
                  adjacency_preferences := [] |} in
  accessibilityNeed eff = "Wheelchair"
  ∧ ci_substring "Wheelchair"
      (default EmptyString (d_location_description Fixtures.D101))
  ∧ accessibility eff Fixtures.D101 = false
  ∧ run Fixtures.reply_Wheelchair = Some []
  ∧ run Fixtures.reply_wheelchair = Some [Fixtures.D101].
Proof.
  cbv zeta. split; [reflexivity|]. split.
  - exists EmptyString, "Wheelchair", " accessible, next to the lift".
    split; reflexivity.
  - split; [|split]; vm_compute; reflexivity.
Qed.

(** ** C5: the order of the tests *)

(** C5. Running the nine tests in any order, stopping at the first that
    fails, keeps the same desks as the order of the source. *)
Theorem C5_cascade_order_independent
    (desksData : list Desk) (occData : list Occupancy) (spacesData : list Space)
    (policiesData : list Policy) (sensorsData : list Sensor) (now : Z)
    (eff : Effective) (tests : list (Desk → bool)) :
  Permutation tests (cascade occData spacesData policiesData sensorsData now eff) →
  List.filter (fun d => forallb (fun p => p d) tests) desksData
  = candidates desksData occData spacesData policiesData sensorsData now eff.
Proof.
  intros Hperm. unfold candidates. apply filter_ext. intros d.
  rewrite passes_cascade. by apply forallb_Permutation.
Qed.

Lemma C5_cascade_order_independent_witness :
  List.filter
    (fun d => forallb (fun p => p d)
       [ sensorHealth Fixtures.sensors0 Fixtures.now0;
         accessibility Fixtures.eff0;
         sanitization Fixtures.policies0 Fixtures.now0;
         capacity Fixtures.occupancy0 Fixtures.policies0;
         location Fixtures.spaces0 Fixtures.eff0;
         equipment Fixtures.eff0;
         standingPolicy Fixtures.eff0;
         deskType Fixtures.eff0;
         availability ])
    Fixtures.desks0
  = candidates Fixtures.desks0 Fixtures.occupancy0 Fixtures.spaces0
      Fixtures.policies0 Fixtures.sensors0 Fixtures.now0 Fixtures.eff0.
Proof.
  apply C5_cascade_order_independent.
  symmetry. apply (Permutation_rev (cascade _ _ _ _ _ _)).
Defined.

(** ** C6: sanitization cooldown *)

(** C6. While policy POL-002 is in the policy set, no returned desk was last
    used less than four hours before the current time. *)
Theorem C6_sanitization_cooldown
    (desksData : list Desk) (occData : list Occupancy) (spacesData : list Space)
    (prefsData : list EmployeePreferences) (policiesData : list Policy)
    (metricsData : list Metric) (sensorsData : list Sensor)
    (chat : string → completion) (JSON_parse : string → option json) (now : Z)
    (employeeId : option string) (query : string) (l : list Desk) (d : Desk) :
  (∃ p, In p policiesData ∧ pol_id p = "POL-002") →
  matchDesks desksData occData spacesData prefsData policiesData metricsData
    sensorsData chat JSON_parse now employeeId query = Some l →
  In d l →
  ¬ (now - d_last_used d < 4 * (1000 * 60 * 60)).
Proof.
  intros Hpol Hrun Hd Hlt.
  apply matchDesks_inv in Hrun as (parsed & _ & Hrank).
  apply (rank_In_passes _ _ _ _ _ _ _ _ _ d) in Hrank as [_ Hp]; [|done].
  apply passes_true in Hp as (_ & _ & _ & _ & _ & _ & Hsan & _).
  unfold sanitization in Hsan.
  apply policy_present in Hpol. unfold sanPolicy in Hsan. rewrite Hpol in Hsan.
  apply hours_lt_4 in Hlt. rewrite Hlt in Hsan. discriminate.
Qed.

Lemma C6_sanitization_cooldown_witness :
  matchDesks Fixtures.desks0 [] Fixtures.spaces0 Fixtures.prefs0 Fixtures.policies0
    Fixtures.metrics0 Fixtures.sensors0 Fixtures.chat_throws Fixtures.parse_throws
    Fixtures.now0 None "any free desk" = Some [Fixtures.D101; Fixtures.D201]
  ∧ ¬ (Fixtures.now0 - d_last_used Fixtures.D101 < 4 * (1000 * 60 * 60)).
Proof.
  split; [vm_compute; reflexivity|].
  apply (C6_sanitization_cooldown Fixtures.desks0 [] Fixtures.spaces0 Fixtures.prefs0
           Fixtures.policies0 Fixtures.metrics0 Fixtures.sensors0
           Fixtures.chat_throws Fixtures.parse_throws Fixtures.now0 None
           "any free desk" [Fixtures.D101; Fixtures.D201]).
  - exists {| pol_id := "POL-002" |}. split; [simpl; left; reflexivity | reflexivity].
  - vm_compute. reflexivity.
  - simpl. left. reflexivity.
Defined.

(** ** C10: capacity without an occupancy value *)

(** C10. A desk whose area has no entry in the occupancy snapshot passes the
    capacity test, with policy POL-005 in the policy set or not, and on such a
    desk the callback of the filter is the conjunction of the other eight
    tests; the capacity test fails only with POL-005 in the policy set and an
    occupancy of at least 80 recorded for the area. *)
Theorem C10_capacity_needs_recorded_occupancy
    (occData : list Occupancy) (spacesData : list Space)
    (policiesData : list Policy) (sensorsData : list Sensor) (now : Z)
    (eff : Effective) (d : Desk) :
  ((∀ o, In o occData → o_area_id o ≠ d_area_id d) →
   capacity occData policiesData d = true
   ∧ passes occData spacesData policiesData sensorsData now eff d
     = forallb (fun p => p d)
         [ availability; deskType eff; standingPolicy eff; equipment eff;
           location spacesData eff; sanitization policiesData now;
           accessibility eff; sensorHealth sensorsData now ])
  ∧ (capacity occData policiesData d = false →
     (∃ p, In p policiesData ∧ pol_id p = "POL-005")
     ∧ ∃ o, In o occData ∧ o_area_id o = d_area_id d
            ∧ (80 <= o_occupancy_percentage o)%Q).
Proof.
  split.
  - intros Hnone. apply occMap_None in Hnone.
    assert (capacity occData policiesData d = true) as Hcap.
    { unfold capacity, occupancy_ge_80. rewrite Hnone. by rewrite andb_false_r. }
    split; [done|].
    rewrite passes_cascade. unfold cascade, forallb. rewrite Hcap.
    by rewrite !andb_true_l.
  - unfold capacity, occupancy_ge_80. rewrite negb_false_iff, andb_true_iff.
    intros [Hpol Hocc]. split; [by apply policy_present|].
    destruct (occMap occData !! d_area_id d) as [pct|] eqn:E; [|discriminate].
    apply occMap_Some in E as (o & Hin & Ha & Hp).
    exists o. repeat split; try done. rewrite Hp. by apply Qle_bool_iff.
Qed.

Lemma C10_capacity_needs_recorded_occupancy_witness :
  capacity Fixtures.occupancy0 Fixtures.policies0 Fixtures.D201 = true
  ∧ ((∃ p, In p Fixtures.policies0 ∧ pol_id p = "POL-005")
     ∧ ∃ o, In o Fixtures.occupancy0 ∧ o_area_id o = d_area_id Fixtures.D101
            ∧ (80 <= o_occupancy_percentage o)%Q).
Proof.
  split.
  - apply (proj1 (C10_capacity_needs_recorded_occupancy Fixtures.occupancy0
             Fixtures.spaces0 Fixtures.policies0 Fixtures.sensors0 Fixtures.now0
             Fixtures.eff0 Fixtures.D201)).
    simpl. intros o [<-|[<-|[]]]; simpl; discriminate.
  - apply (proj2 (C10_capacity_needs_recorded_occupancy Fixtures.occupancy0
             Fixtures.spaces0 Fixtures.policies0 Fixtures.sensors0 Fixtures.now0
             Fixtures.eff0 Fixtures.D101)).
    vm_compute. reflexivity.
Defined.

(** ** C7: ranking inside a part *)



(** The utilization the ranking uses for the desks of the sample data: the
    rates of the records of their areas, and 1 for the area without one. *)
Example utilization_of_sample_desks :
  utilization Fixtures.metrics0 Fixtures.D101 = (3 # 10)%Q
  ∧ utilization Fixtures.metrics0 Fixtures.D304 = (6 # 10)%Q
  ∧ utilization Fixtures.metrics0 Fixtures.D201 = 1%Q.
Proof. repeat split. Qed.

(** ** C8: the adjacency-preferred part comes first *)

(** C8. In the output no desk that is not adjacency-preferred stands before
    one that is, and the output splits into the adjacency-preferred part and
    the other part, which together hold every eligible desk exactly once. *)
Theorem C8_adjacency_preferred_first
    (desksData : list Desk) (occData : list Occupancy) (spacesData : list Space)
    (prefsData : list EmployeePreferences) (policiesData : list Policy)
    (metricsData : list Metric) (sensorsData : list Sensor)
    (chat : string → completion) (JSON_parse : string → option json) (now : Z)
    (employeeId : option string) (query : string)
    (parsed : Parsed) (l : list Desk) :
  parseQuery chat JSON_parse query = Some parsed →
  matchDesks desksData occData spacesData prefsData policiesData metricsData
    sensorsData chat JSON_parse now employeeId query = Some l →
  let eff := effective prefsData employeeId parsed in
  (∀ l1 A l2 B l3, l = l1 ++ A :: l2 ++ B :: l3 →
     adjacency_preferred (adjPrefs eff) B → adjacency_preferred (adjPrefs eff) A)
  ∧ ∃ adjPart otherPart,
      in_two_parts (adjPrefs eff) l adjPart otherPart
      ∧ Permutation (adjPart ++ otherPart)
          (candidates desksData occData spacesData policiesData sensorsData now eff).
Proof.
  intros Hparse Hrun eff.
  apply matchDesks_inv in Hrun as (parsed' & Hparse' & Hrank).
  assert (parsed' = parsed) as -> by congruence.
  apply rank_parts in Hrank as (adjPart & otherPart & Hparts & Hperm & _).
  split; [|by exists adjPart, otherPart].
  destruct Hparts as (-> & Ha & Ho).
  intros l1 A l2 B l3 E. by eapply split_order.
Qed.

Lemma C8_adjacency_preferred_first_witness :
  let eff := Fixtures.eff_marketing in
  let l := [Fixtures.D201; Fixtures.D101; Fixtures.D102] in
  (∀ l1 A l2 B l3, l = l1 ++ A :: l2 ++ B :: l3 →
     adjacency_preferred (adjPrefs eff) B → adjacency_preferred (adjPrefs eff) A)
  ∧ ∃ adjPart otherPart,
      in_two_parts (adjPrefs eff) l adjPart otherPart
      ∧ Permutation (adjPart ++ otherPart)
          (candidates Fixtures.desks0 Fixtures.occupancy0 Fixtures.spaces0 []
             Fixtures.sensors0 Fixtures.now0 eff).
Proof.
  apply (C8_adjacency_preferred_first Fixtures.desks0 Fixtures.occupancy0
           Fixtures.spaces0 Fixtures.prefs0 [] Fixtures.metrics0 Fixtures.sensors0
           Fixtures.chat_answers (Fixtures.parses_to Fixtures.reply_marketing)
           Fixtures.now0 None "a desk near marketing").
  - vm_compute. reflexivity.
  - vm_compute. reflexivity.
Defined.

(** ** C4: a request without preferences *)

Lemma employeePrefs_absent (prefsData : list EmployeePreferences) :
  employeePrefs prefsData None = None.
Proof. unfold employeePrefs. by induction prefsData. Qed.

(** C4, as the claim has it, fails: the one desk is available and standing,
    the request carries no preference and no employee, there are no policies
    and no sensors, and the result is empty. *)
Lemma C4_counterexample :
  parseQuery Fixtures.chat_throws Fixtures.parse_throws "any free desk"
    = Some DEFAULT_PARSED
  ∧ List.filter availability [Fixtures.D304] = [Fixtures.D304]
  ∧ matchDesks [Fixtures.D304] [] [] [] [] [] []
      Fixtures.chat_throws Fixtures.parse_throws Fixtures.now0 None "any free desk"
    = Some [].
Proof. repeat split; vm_compute; reflexivity. Qed.

(** C4, amended. With no employee and with empty parsed desk preferences,
    equipment needs and adjacency preferences, [matchDesks] does not throw;
    its result holds exactly the available desks that are not standing desks
    and pass the location, capacity, sanitization, accessibility and sensor
    tests (the desk-type and equipment tests remove nothing), ordered by
    [last_used] and then by utilization. *)
Theorem C4_request_without_preferences
    (desksData : list Desk) (occData : list Occupancy) (spacesData : list Space)
    (prefsData : list EmployeePreferences) (policiesData : list Policy)
    (metricsData : list Metric) (sensorsData : list Sensor)
    (chat : string → completion) (JSON_parse : string → option json) (now : Z)
    (query : string) (parsed : Parsed) :
  parseQuery chat JSON_parse query = Some parsed →
  desk_preferences parsed = [] →
  equipment_needs parsed = [] →
  adjacency_preferences parsed = [] →
  let eff := effective prefsData None parsed in
  ∃ l,
    matchDesks desksData occData spacesData prefsData policiesData metricsData
      sensorsData chat JSON_parse now None query = Some l
    ∧ Permutation l
        (List.filter
           (fun d =>
              availability d
              && negb (String.eqb (d_type d) "standing")
              && location spacesData eff d
              && capacity occData policiesData d
              && sanitization policiesData now d
              && accessibility eff d
              && sensorHealth sensorsData now d)
           desksData)
    ∧ ∀ l1 A l2 B l3, l = l1 ++ A :: l2 ++ B :: l3 →
        d_last_used A ≤ d_last_used B
        ∧ (d_last_used A = d_last_used B →
           (utilization metricsData A <= utilization metricsData B)%Q).
Proof.
  intros Hparse Hdp Hen Hap eff.
  assert (deskPreferences eff = []) as Hd.
  { unfold eff, effective, baseDeskPrefs. simpl.
    by rewrite Hdp, employeePrefs_absent. }
  assert (equipNeeds eff = []) as He.
  { unfold eff, effective, baseEquipNeeds. simpl.
    by rewrite Hen, employeePrefs_absent. }
  assert (adjPrefs eff = []) as Ha.
  { unfold eff, effective, baseAdjPrefs. simpl.
    by rewrite Hap, employeePrefs_absent. }
  assert (rank desksData occData spacesData policiesData metricsData sensorsData now eff
          = Some (sorter metricsData eff
                    (candidates desksData occData spacesData policiesData
                       sensorsData now eff))) as Hrank.
  { unfold rank. rewrite Ha, partition_loop_nil. reflexivity. }
  eexists. split; [|split].
  - unfold matchDesks. rewrite Hparse. simpl. exact Hrank.
  - rewrite sorter_Permutation. unfold candidates.
    erewrite filter_ext; [reflexivity|]. intros d. simpl.
    rewrite passes_cascade. unfold cascade, forallb.
    unfold deskType, standingPolicy, equipment. rewrite Hd, He. simpl.
    rewrite andb_true_r.
    by destruct (availability d), (String.eqb (d_type d) "standing"),
      (location spacesData eff d), (capacity occData policiesData d),
      (sanitization policiesData now d), (accessibility eff d),
      (sensorHealth sensorsData now d).
  - intros l1 A l2 B l3 E.
    destruct (sorted_ranked metricsData eff _ (sorter_sorted metricsData eff _)
                _ _ _ _ _ E) as [_ H].
    apply H. unfold matchCount. by rewrite He.
Qed.

Lemma C4_request_without_preferences_witness :
  let eff := effective Fixtures.prefs0 None DEFAULT_PARSED in
  ∃ l,
    matchDesks Fixtures.desks0 Fixtures.occupancy0 Fixtures.spaces0 Fixtures.prefs0
      [] Fixtures.metrics0 Fixtures.sensors0 Fixtures.chat_throws
      Fixtures.parse_throws Fixtures.now0 None "any free desk" = Some l
    ∧ Permutation l
        (List.filter
           (fun d =>
              availability d
              && negb (String.eqb (d_type d) "standing")
              && location Fixtures.spaces0 eff d
              && capacity Fixtures.occupancy0 [] d
              && sanitization [] Fixtures.now0 d
              && accessibility eff d
              && sensorHealth Fixtures.sensors0 Fixtures.now0 d)
           Fixtures.desks0)
    ∧ ∀ l1 A l2 B l3, l = l1 ++ A :: l2 ++ B :: l3 →
        d_last_used A ≤ d_last_used B
        ∧ (d_last_used A = d_last_used B →
           (utilization Fixtures.metrics0 A <= utilization Fixtures.metrics0 B)%Q).
Proof.
  apply (C4_request_without_preferences Fixtures.desks0 Fixtures.occupancy0
           Fixtures.spaces0 Fixtures.prefs0 [] Fixtures.metrics0 Fixtures.sensors0
           Fixtures.chat_throws Fixtures.parse_throws Fixtures.now0
           "any free desk" DEFAULT_PARSED); reflexivity.
Defined.

(** ** C9: failure of the NLP collaborator *)

Lemma as_array_no_array (raw : json) (k : string) (d : list json) (v : option json) :
  no_array raw k → get_prop raw k = Some v → as_array d v = d.
Proof.
  intros Hno Hv. destruct v as [[| | | |a|]|]; try done.
  by destruct (Hno a).
Qed.

Lemma as_string_no_string (raw : json) (k : string) (d : string) (v : option json) :
  no_string raw k → get_prop raw k = Some v → as_string d v = d.
Proof.
  intros Hno Hv. destruct v as [[| | |s| |]|]; try done.
  by destruct (Hno s).
Qed.

Lemma as_string_or_null_no_string (raw : json) (k : string) (v : option json) :
  no_string raw k → get_prop raw k = Some v → as_string_or_null None v = None.
Proof.
  intros Hno Hv. destruct v as [[| | |s| |]|]; try done.
  by destruct (Hno s).
Qed.

Lemma all_strings_JStr (l : list string) : all_strings (JStr <$> l).
Proof.
  intros v Hv. apply in_map_iff in Hv as (s & <- & _). eauto.
Qed.

(** Two replies the fallback does not cover: a reply that parses to [null]
    makes [parseQuery] throw, its properties being read behind the [catch];
    an adjacency preference that is no string makes the partition throw. *)
Example parseQuery_null_reply_throws :
  parseQuery Fixtures.chat_answers (Fixtures.parses_to JNull) "any free desk" = None.
Proof. reflexivity. Qed.

Example matchDesks_adjacency_number_throws :
  matchDesks [Fixtures.D101] [] [] [] [] [] []
    Fixtures.chat_answers (Fixtures.parses_to Fixtures.reply_adjacency_number)
    Fixtures.now0 None "a desk near team 3" = None.
Proof. vm_compute. reflexivity. Qed.

(** C9, as the claim has it, fails: in this reply [desk_preferences] is a
    string where an array is due, and [parseQuery] returns an object that
    keeps the equipment needs of the reply. *)
Lemma C9_counterexample :
  let q := "a standing desk with two monitors" in
  raw_of Fixtures.chat_answers (Fixtures.parses_to Fixtures.reply_mistyped) q
    = Fixtures.reply_mistyped
  ∧ get_prop Fixtures.reply_mistyped "desk_preferences"
    = Some (Some (JStr "standing"))
  ∧ (equipment_needs <$>
       parseQuery Fixtures.chat_answers (Fixtures.parses_to Fixtures.reply_mistyped) q)
    = Some [JStr "dual-monitors"]
  ∧ parseQuery Fixtures.chat_answers (Fixtures.parses_to Fixtures.reply_mistyped) q
    ≠ Some DEFAULT_PARSED.
Proof. repeat split; try (vm_compute; reflexivity). discriminate. Qed.

(** C9, amended. When the call of the collaborator throws or its reply does
    not parse, [parseQuery] returns the all-empty default object, the merged
    preferences are the stored ones in every field (empty ones without a
    stored record), and [matchDesks] returns the ranked list of the desks
    eligible under them.  When the reply parses to an object, [parseQuery]
    returns an object in which a field of unexpected type has its empty
    default, for which the stored preference is then used, and a field of the
    expected type has the value of the reply. *)
Theorem C9_nlp_failure_falls_back
    (desksData : list Desk) (occData : list Occupancy) (spacesData : list Space)
    (prefsData : list EmployeePreferences) (policiesData : list Policy)
    (metricsData : list Metric) (sensorsData : list Sensor)
    (chat : string → completion) (JSON_parse : string → option json) (now : Z)
    (employeeId : option string) (query : string) :
  ((chat query = Throws
    ∨ ∃ text, chat query = Content text
              ∧ JSON_parse (strip_fences (JsString.trim text)) = None) →
   parseQuery chat JSON_parse query = Some DEFAULT_PARSED
   ∧ let eff := effective prefsData employeeId DEFAULT_PARSED in
     stored_only prefsData employeeId eff
     ∧ (employeePrefs prefsData employeeId = None →
        eff = {| deskPreferences := []; equipNeeds := []; adjPrefs := [];
                 preferredLocation := EmptyString;
                 accessibilityNeed := EmptyString |})
     ∧ ∃ l adjPart otherPart,
         matchDesks desksData occData spacesData prefsData policiesData metricsData
           sensorsData chat JSON_parse now employeeId query = Some l
         ∧ in_two_parts (adjPrefs eff) l adjPart otherPart
         ∧ Permutation (adjPart ++ otherPart)
             (candidates desksData occData spacesData policiesData sensorsData now eff)
         ∧ ranked metricsData eff adjPart ∧ ranked metricsData eff otherPart)
  ∧ (∀ props, raw_of chat JSON_parse query = JObj props →
     ∃ parsed,
       parseQuery chat JSON_parse query = Some parsed
       ∧ let raw := JObj props in
         let eff := effective prefsData employeeId parsed in
         (no_array raw "desk_preferences" →
          desk_preferences parsed = []
          ∧ deskPreferences eff = JStr <$> baseDeskPrefs prefsData employeeId)
         ∧ (no_array raw "equipment_needs" →
            equipment_needs parsed = []
            ∧ equipNeeds eff = JStr <$> baseEquipNeeds prefsData employeeId)
         ∧ (no_array raw "adjacency_preferences" →
            adjacency_preferences parsed = []
            ∧ adjPrefs eff = JStr <$> baseAdjPrefs prefsData employeeId)
         ∧ (no_string raw "preferred_location" →
            preferred_location parsed = EmptyString
            ∧ preferredLocation eff = baseLocation prefsData employeeId)
         ∧ (no_string raw "accessibility_needs" →
            accessibility_needs parsed = None
            ∧ accessibilityNeed eff = baseAccessibility prefsData employeeId)
         ∧ (∀ a, get_prop raw "desk_preferences" = Some (Some (JArr a)) →
                 desk_preferences parsed = a)
         ∧ (∀ a, get_prop raw "equipment_needs" = Some (Some (JArr a)) →
                 equipment_needs parsed = a)
         ∧ (∀ a, get_prop raw "adjacency_preferences" = Some (Some (JArr a)) →
                 adjacency_preferences parsed = a)
         ∧ (∀ s, get_prop raw "preferred_location" = Some (Some (JStr s)) →
                 preferred_location parsed = s)
         ∧ (∀ s, get_prop raw "accessibility_needs" = Some (Some (JStr s)) →
                 accessibility_needs parsed = Some s)).
Proof.
  split.
  - intros Hfail.
    assert (parseQuery chat JSON_parse query = Some DEFAULT_PARSED) as Hparse.
    { unfold parseQuery, raw_of.
      destruct Hfail as [-> | (text & -> & ->)]; reflexivity. }
    split; [exact Hparse|]. intros eff.
    split; [by repeat split|]. split.
    + intros Hnone. unfold eff, effective, baseDeskPrefs, baseEquipNeeds,
        baseAdjPrefs, baseLocation, baseAccessibility.
      rewrite Hnone. reflexivity.
    + destruct (rank_total desksData occData spacesData policiesData metricsData
                  sensorsData now eff) as [l Hl].
      { intros d _. apply isAdjacent_total. apply all_strings_JStr. }
      destruct (rank_parts _ _ _ _ _ _ _ _ _ Hl)
        as (adjPart & otherPart & Hparts & Hperm & Ha & Ho).
      exists l, adjPart, otherPart.
      split; [|by repeat (split; [done|])].
      unfold matchDesks. rewrite Hparse. exact Hl.
  - intros props Hraw. unfold parseQuery. rewrite Hraw.
    eexists. split; [reflexivity|]. cbv zeta.
    unfold effective. simpl.
    repeat split.
    + eapply as_array_no_array; eauto.
    + erewrite as_array_no_array; eauto.
    + eapply as_array_no_array; eauto.
    + erewrite as_array_no_array; eauto.
    + eapply as_array_no_array; eauto.
    + erewrite as_array_no_array; eauto.
    + eapply as_string_no_string; eauto.
    + erewrite as_string_no_string; eauto.
    + eapply as_string_or_null_no_string; eauto.
    + erewrite as_string_or_null_no_string; eauto.
    + intros a Ha. simpl in Ha. injection Ha as ->. reflexivity.
    + intros a Ha. simpl in Ha. injection Ha as ->. reflexivity.
    + intros a Ha. simpl in Ha. injection Ha as ->. reflexivity.
    + intros s Hs. simpl in Hs. injection Hs as ->. reflexivity.
    + intros s Hs. simpl in Hs. injection Hs as ->. reflexivity.
Qed.

Lemma C9_nlp_failure_falls_back_witness :
  let q := "a standing desk with two monitors" in
  (parseQuery Fixtures.chat_throws Fixtures.parse_throws q = Some DEFAULT_PARSED
   ∧ stored_only Fixtures.prefs0 (Some "E-1") Fixtures.eff0
   ∧ ∃ l, matchDesks Fixtures.desks0 Fixtures.occupancy0 Fixtures.spaces0
            Fixtures.prefs0 Fixtures.policies0 Fixtures.metrics0 Fixtures.sensors0
            Fixtures.chat_throws Fixtures.parse_throws Fixtures.now0 (Some "E-1") q
          = Some l)
  ∧ ∃ parsed,
      parseQuery Fixtures.chat_answers (Fixtures.parses_to Fixtures.reply_mistyped) q
        = Some parsed
      ∧ desk_preferences parsed = []
      ∧ equipment_needs parsed = [JStr "dual-monitors"].
Proof.
  intros q. split.
  - destruct (proj1 (C9_nlp_failure_falls_back Fixtures.desks0 Fixtures.occupancy0
                       Fixtures.spaces0 Fixtures.prefs0 Fixtures.policies0
                       Fixtures.metrics0 Fixtures.sensors0 Fixtures.chat_throws
                       Fixtures.parse_throws Fixtures.now0 (Some "E-1") q))
      as (Hparse & Hstored & _ & l & _ & _ & Hrun & _).
    + left. reflexivity.
    + split; [exact Hparse|]. split; [exact Hstored|]. exists l. exact Hrun.
  - destruct (proj2 (C9_nlp_failure_falls_back Fixtures.desks0 Fixtures.occupancy0
                       Fixtures.spaces0 Fixtures.prefs0 Fixtures.policies0
                       Fixtures.metrics0 Fixtures.sensors0 Fixtures.chat_answers
                       (Fixtures.parses_to Fixtures.reply_mistyped) Fixtures.now0
                       (Some "E-1") q)
                [("desk_preferences", JStr "standing");
                 ("equipment_needs", JArr [JStr "dual-monitors"])])
      as (parsed & Hparse & Hdp & _ & _ & _ & _ & _ & Hen & _).
    + reflexivity.
    + exists parsed. split; [exact Hparse|]. split.
      * apply Hdp. intros a. vm_compute. discriminate.
      * apply Hen. reflexivity.
Defined.

(** * Further properties of the matcher *)

Module MatcherMore.
Local Open Scope list_scope.

Lemma filter_sublist {A} (f : A → bool) (l : list A) :
  List.filter f l `sublist_of` l.
Proof.
  induction l as [|x l IH]; simpl; [constructor|].
  destruct (f x); by constructor.
Qed.

(** In a map filled by successive assignments the last one for a key stays. *)
Lemma fold_insert_last {A V} (key : A → string) (val : A → V)
    (l1 l2 : list A) (x : A) (m0 : gmap string V) :
  (∀ y, In y l2 → key y ≠ key x) →
  fold_left (fun m y => <[key y := val y]> m) (l1 ++ x :: l2) m0 !! key x
  = Some (val x).
Proof.
  intros Hl2. rewrite fold_left_app. simpl.
  generalize (fold_left (fun m y => <[key y := val y]> m) l1 m0). intros m.
  assert (∀ m' : gmap string V, m' !! key x = Some (val x) →
            fold_left (fun m y => <[key y := val y]> m) l2 m' !! key x
            = Some (val x)) as Hkeep.
  { induction l2 as [|y l2 IH]; simpl; intros m' Hm'; [done|].
    apply IH; [intros; apply Hl2; by right|].
    rewrite lookup_insert_ne; [done | apply Hl2; by left]. }
  apply Hkeep. apply lookup_insert_eq.
Qed.

Lemma occMap_last (l1 l2 : list Occupancy) (o : Occupancy) :
  o_area_id o ≠ "__proto__" →
  (∀ o', In o' l2 → o_area_id o' ≠ o_area_id o) →
  occMap (l1 ++ o :: l2) !! o_area_id o = Some (o_occupancy_percentage o).
Proof.
  intros Hproto Hl2. unfold occMap. rewrite fold_left_app. simpl.
  destruct (String.eqb_spec (o_area_id o) "__proto__") as [|_]; [done|].
  generalize (fold_left
                (fun (m : gmap string Q) o0 =>
                   if String.eqb (o_area_id o0) "__proto__" then m
                   else <[o_area_id o0 := o_occupancy_percentage o0]> m) l1 ∅).
  intros m.
  assert (∀ m' : gmap string Q,
            m' !! o_area_id o = Some (o_occupancy_percentage o) →
            fold_left
              (fun m o0 =>
                 if String.eqb (o_area_id o0) "__proto__" then m
                 else <[o_area_id o0 := o_occupancy_percentage o0]> m) l2 m'
            !! o_area_id o = Some (o_occupancy_percentage o)) as Hkeep.
  { induction l2 as [|y l2 IH]; simpl; intros m' Hm'; [done|].
    apply IH; [intros; apply Hl2; by right|].
    destruct (String.eqb _ _); [done|].
    rewrite lookup_insert_ne; [done | apply Hl2; by left]. }
  apply Hkeep, lookup_insert_eq.
Qed.

Lemma sensorMap_last (l1 l2 : list Sensor) (s : Sensor) :
  (∀ s', In s' l2 → s_area_id s' ≠ s_area_id s) →
  sensorMap (l1 ++ s :: l2) !! s_area_id s
  = Some {| status := s_status s; lastReading := s_last_reading s |}.
Proof.
  apply (fold_insert_last s_area_id
           (fun s => {| status := s_status s; lastReading := s_last_reading s |})).
Qed.

Section returned.
Variable desksData : list Desk.
Variable occData : list Occupancy.
Variable spacesData : list Space.
Variable prefsData : list EmployeePreferences.
Variable policiesData : list Policy.
Variable metricsData : list Metric.
Variable sensorsData : list Sensor.
Variable chat : string → completion.
Variable JSON_parse : string → option json.
Variable now : Z.
Variable employeeId : option string.
Variable query : string.

Abbreviation run :=
  (matchDesks desksData occData spacesData prefsData policiesData metricsData
     sensorsData chat JSON_parse now employeeId query).
Abbreviation passes := (passes occData spacesData policiesData sensorsData now).

(** A returned desk is a desk of the data that passed the callback of the
    filter under the merged preferences. *)
Lemma returned_passes (parsed : Parsed) (l : list Desk) (d : Desk) :
  parseQuery chat JSON_parse query = Some parsed →
  run = Some l → In d l →
  In d desksData ∧ passes (effective prefsData employeeId parsed) d = true.
Proof.
  intros Hparse Hrun Hd.
  apply matchDesks_inv in Hrun as (parsed' & Hparse' & Hrank).
  assert (parsed' = parsed) as -> by congruence.
  by eapply rank_In_passes.
Qed.

End returned.
End MatcherMore.

Import MatcherMore.

(** X1. Every returned desk is a desk of the data with status [available],
    and no desk is returned more often than the data lists it. *)
Theorem returned_desks_available
    (desksData : list Desk) (occData : list Occupancy) (spacesData : list Space)
    (prefsData : list EmployeePreferences) (policiesData : list Policy)
    (metricsData : list Metric) (sensorsData : list Sensor)
    (chat : string → completion) (JSON_parse : string → option json) (now : Z)
    (employeeId : option string) (query : string) (l : list Desk) :
  matchDesks desksData occData spacesData prefsData policiesData metricsData
    sensorsData chat JSON_parse now employeeId query = Some l →
  l ⊆+ desksData
  ∧ (length l ≤ length desksData)%nat
  ∧ ∀ d, In d l → In d desksData ∧ d_status d = "available".
Proof.
  intros Hrun.
  destruct (matchDesks_inv _ _ _ _ _ _ _ _ _ _ _ _ _ Hrun) as (parsed & Hparse & Hrank).
  assert (l ⊆+ desksData) as Hsub.
  { rewrite (rank_Permutation _ _ _ _ _ _ _ _ _ Hrank).
    apply sublist_submseteq, filter_sublist. }
  split; [done|]. split; [by apply submseteq_length|].
  intros d Hd.
  destruct (returned_passes _ _ _ _ _ _ _ _ _ _ _ _ _ _ _ Hparse Hrun Hd) as [Hin Hp].
  split; [done|].
  apply passes_true in Hp as (Hav & _). by apply String.eqb_eq.
Qed.

Lemma returned_desks_available_witness :
  [Fixtures.D101; Fixtures.D201] ⊆+ Fixtures.desks0
  ∧ (length [Fixtures.D101; Fixtures.D201] ≤ length Fixtures.desks0)%nat
  ∧ ∀ d, In d [Fixtures.D101; Fixtures.D201] →
         In d Fixtures.desks0 ∧ d_status d = "available".
Proof.
  apply (returned_desks_available Fixtures.desks0 [] Fixtures.spaces0 Fixtures.prefs0
           Fixtures.policies0 Fixtures.metrics0 Fixtures.sensors0
           Fixtures.chat_throws Fixtures.parse_throws Fixtures.now0 None
           "any free desk").
  vm_compute. reflexivity.
Defined.

Section returned_desks.
Variable desksData : list Desk.
Variable occData : list Occupancy.
Variable spacesData : list Space.
Variable prefsData : list EmployeePreferences.
Variable policiesData : list Policy.
Variable metricsData : list Metric.
Variable sensorsData : list Sensor.
Variable chat : string → completion.
Variable JSON_parse : string → option json.
Variable now : Z.
Variable employeeId : option string.
Variable query : string.

Abbreviation run :=
  (matchDesks desksData occData spacesData prefsData policiesData metricsData
     sensorsData chat JSON_parse now employeeId query).

(** X2. When the merged desk preferences name a desk type, every returned
    desk is of the enforced type; and a standing desk is returned only when
    [standing] is among the merged desk preferences. *)
Theorem returned_desks_of_enforced_type (parsed : Parsed) (l : list Desk) (d : Desk) :
  parseQuery chat JSON_parse query = Some parsed →
  run = Some l → In d l →
  let eff := effective prefsData employeeId parsed in
  (∀ t, finalDeskType (deskPreferences eff) = Some (JStr t) → d_type d = t)
  ∧ (d_type d = "standing" → In (JStr "standing") (deskPreferences eff)).
Proof.
  intros Hparse Hrun Hd eff.
  destruct (returned_passes _ _ _ _ _ _ _ _ _ _ _ _ _ _ _ Hparse Hrun Hd) as [_ Hp].
  apply passes_true in Hp as (_ & Hty & Hst & _). split.
  - intros t Ht. unfold deskType in Hty. fold eff in Hty. rewrite Ht in Hty.
    simpl in Hty. apply String.eqb_eq in Hty. done.
  - intros Hs. unfold standingPolicy in Hst. fold eff in Hst.
    rewrite Hs in Hst. simpl in Hst. rewrite negb_involutive in Hst.
    unfold includes_str in Hst. apply existsb_exists in Hst as (v & Hin & Hv).
    destruct v as [| | |s| |]; try discriminate.
    simpl in Hv. apply String.eqb_eq in Hv. by subst.
Qed.

(** X3. Every returned desk has every merged equipment need among its
    features, so that its count of matched equipment tags is the number of
    needs, the same for all returned desks. *)
Theorem returned_desks_have_equipment (parsed : Parsed) (l : list Desk) (d : Desk) :
  parseQuery chat JSON_parse query = Some parsed →
  run = Some l → In d l →
  let eff := effective prefsData employeeId parsed in
  (∀ need, In need (equipNeeds eff) → ∃ s, need = JStr s ∧ In s (d_features d))
  ∧ matchCount eff d = length (equipNeeds eff).
Proof.
  intros Hparse Hrun Hd eff.
  destruct (returned_passes _ _ _ _ _ _ _ _ _ _ _ _ _ _ _ Hparse Hrun Hd) as [_ Hp].
  apply passes_true in Hp as (_ & _ & _ & Heq & _).
  unfold equipment in Heq. fold eff in Heq.
  rewrite forallb_forall in Heq. split.
  - intros need Hin. specialize (Heq need Hin).
    unfold includes_val in Heq. apply existsb_exists in Heq as (f & Hf & Hv).
    destruct need as [| | |s| |]; try discriminate.
    simpl in Hv. apply String.eqb_eq in Hv. subst. eauto.
  - unfold matchCount. fold eff. f_equal.
    induction (equipNeeds eff) as [|n ns IH]; simpl; [done|].
    rewrite (Heq n) by (by left). f_equal. apply IH.
    intros; apply Heq; by right.
Qed.

(** X4. With a preferred location set, the zone of every returned desk is
    named by the preferred location, or the zone is a space whose parent is a
    space named by it. *)
Theorem returned_desks_at_location (parsed : Parsed) (l : list Desk) (d : Desk) :
  parseQuery chat JSON_parse query = Some parsed →
  run = Some l → In d l →
  let eff := effective prefsData employeeId parsed in
  preferredLocation eff ≠ EmptyString →
  d_zone d = preferredLocation eff
  ∨ ∃ zone floor,
      In zone spacesData ∧ sp_name zone = d_zone d
      ∧ In floor spacesData ∧ sp_parent_id zone = Some (sp_id floor)
      ∧ sp_name floor = preferredLocation eff.
Proof.
  intros Hparse Hrun Hd eff Hloc.
  destruct (returned_passes _ _ _ _ _ _ _ _ _ _ _ _ _ _ _ Hparse Hrun Hd) as [_ Hp].
  apply passes_true in Hp as (_ & _ & _ & _ & Hl & _).
  unfold location, location_passes in Hl. fold eff in Hl.
  destruct (preferredLocation eff) as [|c loc] eqn:E; [done|]. simpl in Hl.
  destruct (String.eqb_spec (d_zone d) (String c loc)) as [Hz|Hz]; [by left|].
  right. simpl in Hl.
  destruct (List.find _ spacesData) as [zone|] eqn:Ezone; [|discriminate].
  destruct (List.find _ spacesData) as [floor|] eqn:Efloor in Hl; [|discriminate].
  apply find_some in Ezone as [Hzin Hzname].
  apply find_some in Efloor as [Hfin Hfid].
  exists zone, floor. apply String.eqb_eq in Hzname, Hl.
  destruct (sp_parent_id zone) as [p|]; [|discriminate].
  apply String.eqb_eq in Hfid. subst p. done.
Qed.

(** X5. With policy POL-005 in the policy set, no desk is returned whose
    area has an occupancy of 80 or more in the last snapshot entry for the
    area, the area not being named [__proto__] (an entry of that name is
    never stored). *)
Theorem returned_desks_below_capacity
    (l : list Desk) (d : Desk) (before_o after_o : list Occupancy) (o : Occupancy) :
  (∃ p, In p policiesData ∧ pol_id p = "POL-005") →
  occData = before_o ++ o :: after_o →
  o_area_id o ≠ "__proto__" →
  (∀ o', In o' after_o → o_area_id o' ≠ o_area_id o) →
  (80 <= o_occupancy_percentage o)%Q →
  run = Some l → In d l →
  d_area_id d ≠ o_area_id o.
Proof.
  intros Hpol Hocc Hproto Hlast Hpct Hrun Hd Harea.
  destruct (matchDesks_inv _ _ _ _ _ _ _ _ _ _ _ _ _ Hrun) as (parsed & Hparse & _).
  destruct (returned_passes _ _ _ _ _ _ _ _ _ _ _ _ _ _ _ Hparse Hrun Hd) as [_ Hp].
  apply passes_true in Hp as (_ & _ & _ & _ & _ & Hcap & _).
  unfold capacity, occupancy_ge_80, capPolicy in Hcap.
  apply policy_present in Hpol. rewrite Hpol in Hcap.
  rewrite Hocc, Harea, occMap_last in Hcap by done.
  apply Qle_bool_iff in Hpct. rewrite Hpct in Hcap. discriminate.
Qed.

(** X6. No desk is returned whose area has a sensor that, in the last
    sensor record for the area, is not [active]. *)
Theorem returned_desks_sensor_active
    (l : list Desk) (d : Desk) (before_s after_s : list Sensor) (s : Sensor) :
  sensorsData = before_s ++ s :: after_s →
  (∀ s', In s' after_s → s_area_id s' ≠ s_area_id s) →
  s_status s ≠ "active" →
  run = Some l → In d l →
  d_area_id d ≠ s_area_id s.
Proof.
  intros Hsens Hlast Hstatus Hrun Hd Harea.
  destruct (matchDesks_inv _ _ _ _ _ _ _ _ _ _ _ _ _ Hrun) as (parsed & Hparse & _).
  destruct (returned_passes _ _ _ _ _ _ _ _ _ _ _ _ _ _ _ Hparse Hrun Hd) as [_ Hp].
  apply passes_true in Hp as (_ & _ & _ & _ & _ & _ & _ & _ & Hs).
  unfold sensorHealth, sensor_read in Hs.
  rewrite Hsens, Harea, sensorMap_last in Hs by done. simpl in Hs.
  apply andb_true_iff in Hs as [Hs _]. apply String.eqb_eq in Hs. done.
Qed.

(** X7. With an accessibility need set, every returned desk has the need
    among its features or, letters compared without their case, inside its
    location description. *)
Theorem returned_desks_accessible (parsed : Parsed) (l : list Desk) (d : Desk) :
  parseQuery chat JSON_parse query = Some parsed →
  run = Some l → In d l →
  let eff := effective prefsData employeeId parsed in
  accessibilityNeed eff ≠ EmptyString →
  In (accessibilityNeed eff) (d_features d)
  ∨ ci_substring (accessibilityNeed eff)
      (default EmptyString (d_location_description d)).
Proof.
  intros Hparse Hrun Hd eff Hneed.
  destruct (returned_passes _ _ _ _ _ _ _ _ _ _ _ _ _ _ _ Hparse Hrun Hd) as [_ Hp].
  apply passes_true in Hp as (_ & _ & _ & _ & _ & _ & _ & Hacc & _).
  apply accessibility_sound; [|done].
  by destruct (accessibilityNeed eff).
Qed.

End returned_desks.

Lemma returned_desks_of_enforced_type_witness :
  let eff := Fixtures.eff0 in
  (∀ t, finalDeskType (deskPreferences eff) = Some (JStr t) → d_type Fixtures.D304 = t)
  ∧ (d_type Fixtures.D304 = "standing" → In (JStr "standing") (deskPreferences eff)).
Proof.
  apply (returned_desks_of_enforced_type Fixtures.desks0 Fixtures.occupancy0
           Fixtures.spaces0 Fixtures.prefs0 Fixtures.policies0 Fixtures.metrics0
           Fixtures.sensors0 Fixtures.chat_throws Fixtures.parse_throws Fixtures.now0
           (Some "E-1") "my usual desk" DEFAULT_PARSED [Fixtures.D304]).
  - reflexivity.
  - vm_compute. reflexivity.
  - simpl. left. reflexivity.
Defined.

Lemma returned_desks_have_equipment_witness :
  let eff := Fixtures.eff0 in
  (∀ need, In need (equipNeeds eff) →
           ∃ s, need = JStr s ∧ In s (d_features Fixtures.D304))
  ∧ matchCount eff Fixtures.D304 = length (equipNeeds eff).
Proof.
  apply (returned_desks_have_equipment Fixtures.desks0 Fixtures.occupancy0
           Fixtures.spaces0 Fixtures.prefs0 Fixtures.policies0 Fixtures.metrics0
           Fixtures.sensors0 Fixtures.chat_throws Fixtures.parse_throws Fixtures.now0
           (Some "E-1") "my usual desk" DEFAULT_PARSED [Fixtures.D304]).
  - reflexivity.
  - vm_compute. reflexivity.
  - simpl. left. reflexivity.
Defined.

Lemma returned_desks_at_location_witness :
  let eff := Fixtures.eff0 in
  d_zone Fixtures.D304 = preferredLocation eff
  ∨ ∃ zone floor,
      In zone Fixtures.spaces0 ∧ sp_name zone = d_zone Fixtures.D304
      ∧ In floor Fixtures.spaces0 ∧ sp_parent_id zone = Some (sp_id floor)
      ∧ sp_name floor = preferredLocation eff.
Proof.
  apply (returned_desks_at_location Fixtures.desks0 Fixtures.occupancy0
           Fixtures.spaces0 Fixtures.prefs0 Fixtures.policies0 Fixtures.metrics0
           Fixtures.sensors0 Fixtures.chat_throws Fixtures.parse_throws Fixtures.now0
           (Some "E-1") "my usual desk" DEFAULT_PARSED [Fixtures.D304]).
  - reflexivity.
  - vm_compute. reflexivity.
  - simpl. left. reflexivity.
  - vm_compute. discriminate.
Defined.

Lemma returned_desks_below_capacity_witness :
  d_area_id Fixtures.D304 ≠ "area-001".
Proof.
  apply (returned_desks_below_capacity Fixtures.desks0 Fixtures.occupancy0
           Fixtures.spaces0 Fixtures.prefs0 Fixtures.policies0 Fixtures.metrics0
           Fixtures.sensors0 Fixtures.chat_throws Fixtures.parse_throws Fixtures.now0
           (Some "E-1") "my usual desk" [Fixtures.D304] Fixtures.D304 []
           [ {| o_area_id := "area-002"; o_occupancy_percentage := 40 |} ]
           {| o_area_id := "area-001"; o_occupancy_percentage := 85 |}).
  - exists {| pol_id := "POL-005" |}. split; [simpl; tauto | reflexivity].
  - reflexivity.
  - simpl. discriminate.
  - simpl. intros o' [<-|[]]. simpl. discriminate.
  - vm_compute. discriminate.
  - vm_compute. reflexivity.
  - simpl. left. reflexivity.
Defined.

Lemma returned_desks_sensor_active_witness :
  d_area_id Fixtures.D201 ≠ "area-001".
Proof.
  apply (returned_desks_sensor_active Fixtures.desks0 Fixtures.occupancy0
           Fixtures.spaces0 Fixtures.prefs0 [] Fixtures.metrics0
           Fixtures.sensors1 Fixtures.chat_throws Fixtures.parse_throws Fixtures.now0
           None "any free desk" [Fixtures.D201] Fixtures.D201 []
           [ {| s_area_id := "area-002"; s_status := "active";
                s_last_reading := 1746608100000 |} ]
           {| s_area_id := "area-001"; s_status := "offline";
              s_last_reading := 1746608100000 |}).
  - reflexivity.
  - simpl. intros s' [<-|[]]. simpl. discriminate.
  - simpl. discriminate.
  - vm_compute. reflexivity.
  - simpl. left. reflexivity.
Defined.

Lemma returned_desks_accessible_witness :
  let eff := effective Fixtures.prefs0 None Fixtures.parsed_wheelchair in
  In (accessibilityNeed eff) (d_features Fixtures.D101)
  ∨ ci_substring (accessibilityNeed eff)
      (default EmptyString (d_location_description Fixtures.D101)).
Proof.
  apply (returned_desks_accessible Fixtures.desks0 Fixtures.occupancy0
           Fixtures.spaces0 Fixtures.prefs0 [] Fixtures.metrics0
           Fixtures.sensors0 Fixtures.chat_answers
           (Fixtures.parses_to Fixtures.reply_wheelchair) Fixtures.now0
           None "a desk with wheelchair access" Fixtures.parsed_wheelchair
           [Fixtures.D101]).
  - reflexivity.
  - vm_compute. reflexivity.
  - simpl. left. reflexivity.
  - vm_compute. discriminate.
Defined.

(** ** When [matchDesks] throws *)

Lemma isAdjacent_throws (prefs : list json) (d : Desk) :
  isAdjacent prefs d = None ↔
  ∃ l1 v l2, prefs = l1 ++ v :: l2
    ∧ (∀ s, v ≠ JStr s)
    ∧ ∀ w, In w l1 → ∃ s, w = JStr s ∧ ¬ ci_substring s (d_zone d).
Proof.
  induction prefs as [|v prefs IH]; simpl.
  - split; [discriminate | intros ([|? ?] & ? & ? & ? & _); discriminate].
  - split.
    + intros H. destruct v as [| | |s| |];
        try (eexists [], _, prefs; split; [reflexivity|];
             split; [intros ?; discriminate | intros ? []]).
      destruct (includes _ _) eqn:E; [discriminate|].
      apply IH in H as (l1 & v & l2 & -> & Hv & Hl1).
      exists (JStr s :: l1), v, l2. split; [reflexivity|]. split; [done|].
      intros w [<-|Hw]; [|by apply Hl1].
      exists s. split; [done|]. intros Hci.
      apply includes_lower_ci in Hci. congruence.
    + intros ([|w l1] & v' & l2 & E & Hv & Hl1); simpl in E; injection E as -> ->.
      * destruct v' as [| | |s| |]; try done. by destruct (Hv s).
      * destruct (Hl1 w) as (s & -> & Hci); [by left|].
        destruct (includes _ _) eqn:E.
        { destruct Hci. by apply includes_lower_ci. }
        apply IH. exists l1, v', l2. split; [done|]. split; [done|].
        intros; apply Hl1; by right.
Qed.

Lemma partition_loop_throws (prefs : list json) (cands adj other : list Desk) :
  partition_loop prefs cands adj other = None ↔
  ∃ d, In d cands ∧ isAdjacent prefs d = None.
Proof.
  split.
  - revert adj other; induction cands as [|d cands IH]; simpl; intros adj other H;
      [discriminate|].
    destruct (isAdjacent prefs d) as [b|] eqn:E; simpl in H.
    + destruct b; apply IH in H as (x & ? & ?); eauto.
    + eauto.
  - intros (d & Hd & Hnone).
    destruct (partition_loop prefs cands adj other) as [[A O]|] eqn:E; [|done].
    destruct (partition_loop_inv_adjacent _ _ _ _ _ _ E d Hd) as [b Hb].
    congruence.
Qed.

(** X8. [matchDesks] throws exactly when [parseQuery] throws, or when for
    some eligible desk the adjacency preferences hold a value that is no
    string behind strings none of which occurs in the zone name of the
    desk. *)
Theorem matchDesks_throws_iff
    (desksData : list Desk) (occData : list Occupancy) (spacesData : list Space)
    (prefsData : list EmployeePreferences) (policiesData : list Policy)
    (metricsData : list Metric) (sensorsData : list Sensor)
    (chat : string → completion) (JSON_parse : string → option json) (now : Z)
    (employeeId : option string) (query : string) :
  matchDesks desksData occData spacesData prefsData policiesData metricsData
    sensorsData chat JSON_parse now employeeId query = None
  ↔ parseQuery chat JSON_parse query = None
    ∨ ∃ parsed d l1 v l2,
        parseQuery chat JSON_parse query = Some parsed
        ∧ In d (candidates desksData occData spacesData policiesData sensorsData now
                  (effective prefsData employeeId parsed))
        ∧ adjPrefs (effective prefsData employeeId parsed) = l1 ++ v :: l2
        ∧ (∀ s, v ≠ JStr s)
        ∧ ∀ w, In w l1 → ∃ s, w = JStr s ∧ ¬ ci_substring s (d_zone d).
Proof.
  unfold matchDesks.
  destruct (parseQuery chat JSON_parse query) as [parsed|]; simpl;
    [|split; [by left | done]].
  unfold rank.
  destruct (partition_loop _ _ _ _) as [[A O]|] eqn:E; simpl.
  - split; [discriminate|].
    intros [?|(parsed' & d & l1 & v & l2 & [= <-] & Hd & Hprefs & Hv & Hl1)];
      [discriminate|].
    assert (partition_loop (adjPrefs (effective prefsData employeeId parsed))
              (candidates desksData occData spacesData policiesData sensorsData now
                 (effective prefsData employeeId parsed)) [] [] = None);
      [|congruence].
    apply partition_loop_throws. exists d. split; [done|].
    apply isAdjacent_throws. eauto 6.
  - split; [intros _|done]. right.
    apply partition_loop_throws in E as (d & Hd & Hnone).
    apply isAdjacent_throws in Hnone as (l1 & v & l2 & ? & ? & ?).
    exists parsed, d, l1, v, l2. done.
Qed.

Lemma matchDesks_throws_iff_witness :
  matchDesks [Fixtures.D101] [] [] [] [] [] []
    Fixtures.chat_answers (Fixtures.parses_to Fixtures.reply_adjacency_number)
    Fixtures.now0 None "a desk near team 3" = None.
Proof.
  apply (proj2 (matchDesks_throws_iff [Fixtures.D101] [] [] [] [] [] []
                  Fixtures.chat_answers
                  (Fixtures.parses_to Fixtures.reply_adjacency_number)
                  Fixtures.now0 None "a desk near team 3")).
  right.
  exists {| team := EmptyString; desk_preferences := []; equipment_needs := [];
            preferred_days := []; preferred_location := EmptyString;
            accessibility_needs := None;
            adjacency_preferences := [JNum 3] |}, Fixtures.D101, [], (JNum 3), [].
  split; [reflexivity|]. split; [vm_compute; left; reflexivity|].
  split; [reflexivity|]. split; [intros s; discriminate | intros w []].
Defined.

(** ** The metrics record that ranks an area *)

(** X9. An area whose name is no member of [Object.prototype] is ranked by
    the metrics record of the latest date among its records, the first of
    them in the data when several share that date: its utilization rate is
    the utilization of the desks of the area, 1 when the record has none.
    For an area named like a member of [Object.prototype] no record is kept
    and the utilization is 1. *)
Theorem utilization_of_latest_metrics
    (metricsData earlier later : list Metric) (m : Metric) (d : Desk) :
  metricsData = earlier ++ m :: later →
  d_area_id d = m_area_id m →
  (∀ m', In m' earlier → m_area_id m' = m_area_id m → m_date m' < m_date m) →
  (∀ m', In m' later → m_area_id m' = m_area_id m → m_date m' ≤ m_date m) →
  (¬ In (m_area_id m) Object_prototype_members →
   metricsMap metricsData !! d_area_id d = Some m
   ∧ utilization metricsData d = default 1%Q (m_utilization_rate m))
  ∧ (In (m_area_id m) Object_prototype_members →
     metricsMap metricsData !! d_area_id d = None
     ∧ utilization metricsData d = 1%Q).
Proof.
  intros -> Harea Hearlier Hlater. split.
  - intros Hown.
    assert (inherited (m_area_id m) = false) as Hinh.
    { destruct (inherited (m_area_id m)) eqn:E; [|done]. destruct Hown.
      unfold inherited in E. apply existsb_exists in E as (k & Hk & E).
      apply String.eqb_eq in E. by subst. }
    split; [rewrite Harea; by apply metricsMap_latest|].
    by apply utilization_latest.
  - intros Hinh.
    assert (inherited (d_area_id d) = true) as Hinh'.
    { rewrite Harea. unfold inherited. apply existsb_exists.
      exists (m_area_id m). split; [done | apply String.eqb_refl]. }
    split; [by apply metricsMap_inherited | by apply utilization_inherited].
Qed.

Lemma utilization_of_latest_metrics_witness :
  let old := {| m_area_id := "area-002"; m_date := 1746316800000;
                m_utilization_rate := Some (9 # 10) |} in
  let latest := {| m_area_id := "area-002"; m_date := 1746403200000;
                   m_utilization_rate := Some (6 # 10) |} in
  let tie := {| m_area_id := "area-002"; m_date := 1746403200000;
                m_utilization_rate := Some (1 # 10) |} in
  metricsMap [old; latest; tie] !! d_area_id Fixtures.D304 = Some latest
  ∧ utilization [old; latest; tie] Fixtures.D304 = (6 # 10)%Q.
Proof.
  intros old latest tie.
  apply (proj1 (utilization_of_latest_metrics [old; latest; tie] [old] [tie] latest
                  Fixtures.D304 eq_refl eq_refl
                  ltac:(simpl; intros m' [<-|[]] _; simpl; lia)
                  ltac:(simpl; intros m' [<-|[]] _; simpl; lia))).
  simpl. intros H. repeat (destruct H as [H|H]; [discriminate H|]). exact H.
Defined.

(** ** Employees without a record *)

(** X10. An employee identifier that no stored record carries is served
    like an absent one. *)
Theorem unknown_employee_as_absent
    (desksData : list Desk) (occData : list Occupancy) (spacesData : list Space)
    (prefsData : list EmployeePreferences) (policiesData : list Policy)
    (metricsData : list Metric) (sensorsData : list Sensor)
    (chat : string → completion) (JSON_parse : string → option json) (now : Z)
    (i : string) (query : string) :
  (∀ e, In e prefsData → e_employee_id e ≠ i) →
  matchDesks desksData occData spacesData prefsData policiesData metricsData
    sensorsData chat JSON_parse now (Some i) query
  = matchDesks desksData occData spacesData prefsData policiesData metricsData
      sensorsData chat JSON_parse now None query.
Proof.
  intros Hnone.
  assert (employeePrefs prefsData (Some i) = employeePrefs prefsData None) as Hp.
  { rewrite employeePrefs_absent. unfold employeePrefs.
    induction prefsData as [|e l IH]; simpl; [done|].
    destruct (String.eqb_spec (e_employee_id e) i) as [Heq|_].
    - destruct (Hnone e); [by left | done].
    - apply IH. intros; apply Hnone; by right. }
  unfold matchDesks. destruct (parseQuery _ _ _) as [parsed|]; simpl; [|done].
  f_equal. unfold effective, baseDeskPrefs, baseEquipNeeds, baseAdjPrefs,
    baseLocation, baseAccessibility. by rewrite Hp.
Qed.

Lemma unknown_employee_as_absent_witness :
  matchDesks Fixtures.desks0 Fixtures.occupancy0 Fixtures.spaces0 Fixtures.prefs0
    Fixtures.policies0 Fixtures.metrics0 Fixtures.sensors0 Fixtures.chat_throws
    Fixtures.parse_throws Fixtures.now0 (Some "E-9") "any free desk"
  = matchDesks Fixtures.desks0 Fixtures.occupancy0 Fixtures.spaces0 Fixtures.prefs0
      Fixtures.policies0 Fixtures.metrics0 Fixtures.sensors0 Fixtures.chat_throws
      Fixtures.parse_throws Fixtures.now0 None "any free desk".
Proof.
  apply unknown_employee_as_absent.
  simpl. intros e [<-|[]]. simpl. discriminate.
Defined.

(** * Further properties of the parser of queries *)

Module TrimFacts.
Local Open Scope string_scope.
Local Arguments String.append : simpl nomatch.

Lemma append_nil_r (s : string) : s ++ EmptyString = s.
Proof. induction s as [|c s IH]; simpl; [done | by rewrite IH]. Qed.

Lemma append_assoc (s t u : string) : (s ++ t) ++ u = s ++ (t ++ u).
Proof. induction s as [|c s IH]; simpl; [done | by rewrite IH]. Qed.

Lemma append_cancel_l (p s t : string) : p ++ s = p ++ t → s = t.
Proof. induction p as [|c p IH]; simpl; [done|]. intros [= H]. auto. Qed.

Lemma rev_app (s t : string) : rev (s ++ t) = rev t ++ rev s.
Proof.
  induction s as [|c s IH]; simpl; [by rewrite append_nil_r|].
  by rewrite IH, append_assoc.
Qed.

Lemma rev_involutive (s : string) : rev (rev s) = s.
Proof.
  induction s as [|c s IH]; simpl; [done|].
  rewrite rev_app. simpl. by rewrite IH.
Qed.

Lemma append_cancel_r (p s t : string) : s ++ p = t ++ p → s = t.
Proof.
  intros H. apply (f_equal rev) in H. rewrite !rev_app in H.
  apply append_cancel_l in H. apply (f_equal rev) in H.
  by rewrite !rev_involutive in H.
Qed.

Lemma strip_prefix_app (p s : string) : strip_prefix p (p ++ s) = Some s.
Proof.
  induction p as [|c p IH]; simpl; [by destruct s|].
  by rewrite Ascii.eqb_refl.
Qed.

Lemma strip_prefix_Some (p s r : string) : strip_prefix p s = Some r → s = p ++ r.
Proof.
  revert s; induction p as [|c p IH]; intros s; simpl.
  - destruct s; by intros [= ->].
  - destruct s as [|b s]; [discriminate|].
    destruct (Ascii.eqb_spec c b) as [->|]; [|discriminate].
    intros H. by rewrite (IH _ H).
Qed.

Lemma strip_suffix_app (p s : string) : strip_suffix p (s ++ p) = Some s.
Proof.
  unfold strip_suffix. rewrite rev_app, strip_prefix_app. simpl.
  by rewrite rev_involutive.
Qed.

Lemma strip_suffix_Some (p s r : string) : strip_suffix p s = Some r → s = r ++ p.
Proof.
  unfold strip_suffix. destruct (strip_prefix _ _) as [u|] eqn:E; [|discriminate].
  intros [= <-]. apply strip_prefix_Some in E.
  apply (f_equal rev) in E. by rewrite rev_involutive, rev_app, rev_involutive in E.
Qed.

Lemma length_trimStart (s : string) : (String.length (trimStart s) ≤ String.length s)%nat.
Proof.
  induction s as [|c s IH]; simpl; [done|].
  destruct (is_space c); simpl; lia.
Qed.

Lemma trimStart_idemp (s : string) : trimStart (trimStart s) = trimStart s.
Proof.
  induction s as [|c s IH]; simpl; [done|].
  destruct (is_space c) eqn:E; [done|]. simpl. by rewrite E.
Qed.

(** A string that [trimStart] leaves alone is empty or starts with a
    character that is no white space. *)
Lemma trimStart_fixed (c : ascii) (s : string) :
  trimStart (String c s) = String c s → is_space c = false.
Proof.
  simpl. destruct (is_space c); [|done].
  intros H. pose proof (length_trimStart s) as L. rewrite H in L. simpl in L. lia.
Qed.

Lemma trimStart_snoc (s : string) (c : ascii) :
  is_space c = false → ∃ w, trimStart (s ++ String c EmptyString) = w ++ String c EmptyString.
Proof.
  intros Hc. induction s as [|a s IH]; simpl.
  - rewrite Hc. by exists EmptyString.
  - destruct (is_space a); [done|]. by exists (String a s).
Qed.

Lemma trimStart_snoc_space (s : string) (c : ascii) :
  is_space c = true →
  trimStart (s ++ String c EmptyString)
  = match trimStart s with
    | EmptyString => EmptyString
    | u => u ++ String c EmptyString
    end.
Proof.
  intros Hc. induction s as [|a s IH]; simpl.
  - by rewrite Hc.
  - destruct (is_space a); [done|]. done.
Qed.

(** [trim] leaves a trimmed string alone. *)
Lemma trim_idemp (s : string) : trim (trim s) = trim s.
Proof.
  unfold trim.
  assert (∀ u, trimStart u = u →
               trimStart (rev (trimStart (rev u))) = rev (trimStart (rev u))) as Hclean.
  { intros [|c u] Hu; [done|].
    apply trimStart_fixed in Hu. simpl.
    destruct (trimStart_snoc (rev u) c Hu) as [w ->].
    rewrite rev_app. simpl. by rewrite Hu. }
  rewrite Hclean by apply trimStart_idemp.
  rewrite rev_involutive. apply Hclean, trimStart_idemp.
Qed.

(** White space at the end does not change what [trim] gives. *)
Lemma trim_snoc_space (s : string) (c : ascii) :
  is_space c = true → trim (s ++ String c EmptyString) = trim s.
Proof.
  intros Hc. unfold trim. rewrite trimStart_snoc_space by done.
  destruct (trimStart s) as [|a u] eqn:E; [done|].
  rewrite rev_app. simpl. by rewrite Hc.
Qed.

Lemma trim_empty_iff_all_space (s : string) :
  trim s = EmptyString ↔ trimStart s = EmptyString.
Proof.
  unfold trim. split.
  - intros H. apply (f_equal rev) in H. rewrite rev_involutive in H. simpl in H.
    destruct (trimStart s) as [|c u] eqn:E; [done|]. exfalso.
    assert (is_space c = false) as Hc.
    { apply (trimStart_fixed c u). rewrite <- E. apply trimStart_idemp. }
    simpl in H. destruct (trimStart_snoc (rev u) c Hc) as [w Hw].
    rewrite Hw in H. by destruct w.
  - by intros ->.
Qed.

End TrimFacts.

Import TrimFacts.

(** X11. [parseQuery] throws exactly when the collaborator answers and its
    reply, trimmed and without its fences, parses to [null]. *)
Theorem parseQuery_throws_iff
    (chat : string → completion) (JSON_parse : string → option json) (q : string) :
  parseQuery chat JSON_parse q = None
  ↔ ∃ text, chat q = Content text
            ∧ JSON_parse (strip_fences (JsString.trim text)) = Some JNull.
Proof.
  unfold parseQuery, raw_of. split.
  - destruct (chat q) as [|text]; [discriminate|].
    destruct (JSON_parse _) as [[| | | | |]|] eqn:E; try discriminate.
    intros _. eauto.
  - intros (text & -> & ->). reflexivity.
Qed.

Lemma parseQuery_throws_iff_witness :
  parseQuery Fixtures.chat_answers (Fixtures.parses_to JNull) "any free desk" = None.
Proof.
  apply (proj2 (parseQuery_throws_iff Fixtures.chat_answers
                  (Fixtures.parses_to JNull) "any free desk")).
  eexists. split; reflexivity.
Defined.

Lemma get_prop_absent (props : list (string * json)) (k : string) :
  (∀ kv, In kv props → fst kv ≠ k) → get_prop (JObj props) k = Some None.
Proof.
  intros Hobj. simpl. f_equal.
  induction props as [|kv props IH]; simpl; [done|].
  destruct (String.eqb_spec (fst kv) k) as [Heq|_].
  - destruct (Hobj kv); [by left | done].
  - apply IH. intros; apply Hobj; by right.
Qed.

(** X12. A reply that parses to a number, a string, a boolean or an array,
    or to an object with none of the seven properties, gives the all-empty
    default object, like a reply that does not parse. *)
Theorem parseQuery_other_values_default
    (chat : string → completion) (JSON_parse : string → option json)
    (q text : string) (v : json) :
  chat q = Content text →
  JSON_parse (strip_fences (JsString.trim text)) = Some v →
  v ≠ JNull →
  (∀ props, v = JObj props →
     ∀ k, In k ["team"; "desk_preferences"; "equipment_needs"; "preferred_days";
                "preferred_location"; "accessibility_needs";
                "adjacency_preferences"] →
          ∀ kv, In kv props → fst kv ≠ k) →
  parseQuery chat JSON_parse q = Some DEFAULT_PARSED.
Proof.
  intros Hchat Hparse Hnull Hobj.
  unfold parseQuery, raw_of. rewrite Hchat, Hparse.
  destruct v as [| | | | |props]; try done.
  assert (∀ k, In k ["team"; "desk_preferences"; "equipment_needs"; "preferred_days";
                     "preferred_location"; "accessibility_needs";
                     "adjacency_preferences"] →
               get_prop (JObj props) k = Some None) as Hget.
  { intros k Hk. apply get_prop_absent. by apply Hobj. }
  unfold shape.
  rewrite !Hget by (simpl; tauto). reflexivity.
Qed.

Lemma parseQuery_other_values_default_witness :
  parseQuery Fixtures.chat_answers (Fixtures.parses_to (JArr [JStr "standing"]))
    "a standing desk" = Some DEFAULT_PARSED
  ∧ parseQuery Fixtures.chat_answers
      (Fixtures.parses_to (JObj [("desks", JArr [JStr "standing"])]))
      "a standing desk" = Some DEFAULT_PARSED.
Proof.
  split.
  - apply (parseQuery_other_values_default Fixtures.chat_answers
             (Fixtures.parses_to (JArr [JStr "standing"])) "a standing desk" "{}"
             (JArr [JStr "standing"])).
    + reflexivity.
    + reflexivity.
    + discriminate.
    + intros props H. discriminate H.
  - apply (parseQuery_other_values_default Fixtures.chat_answers
             (Fixtures.parses_to (JObj [("desks", JArr [JStr "standing"])]))
             "a standing desk" "{}" (JObj [("desks", JArr [JStr "standing"])])).
    + reflexivity.
    + reflexivity.
    + discriminate.
    + intros props [= <-] k Hk kv [<-|[]]. simpl in *.
      intros <-. repeat (destruct Hk as [Hk|Hk]; [discriminate Hk|]). done.
Defined.

Section fences.
Local Open Scope string_scope.
Local Arguments String.append : simpl nomatch.

Lemma strip_leading_fence_opening (tag nl rest : string) :
  tag = EmptyString ∨ tag = "json" →
  nl = String LF EmptyString ∨ nl = String CR (String LF EmptyString) →
  strip_leading_fence (fence ++ tag ++ nl ++ rest) = rest.
Proof.
  intros [-> | ->] [-> | ->]; unfold strip_leading_fence, fence; simpl;
    by destruct rest.
Qed.

Lemma strip_trailing_fence_closing (nl body : string) :
  nl = String LF EmptyString ∨ nl = String CR (String LF EmptyString) →
  JsString.trim (strip_trailing_fence (body ++ nl ++ fence)) = JsString.trim body.
Proof.
  intros [-> | ->]; unfold strip_trailing_fence; simpl.
  - destruct (strip_suffix (String CR (String LF fence)) (body ++ String LF fence))
      as [u|] eqn:E.
    + apply strip_suffix_Some in E.
      change (u ++ String CR (String LF fence))
        with (u ++ String CR EmptyString ++ String LF fence) in E.
      rewrite <- append_assoc in E. apply append_cancel_r in E. subst body.
      by rewrite trim_snoc_space.
    + by rewrite strip_suffix_app.
  - by rewrite strip_suffix_app.
Qed.

(** X13. A reply fenced with three backquotes, with or without the tag
    [json] behind the opening fence and with line ends of either kind, is
    handed to [JSON.parse] as its trimmed body. *)
Theorem strip_fences_unwraps (tag nl1 nl2 body : string) :
  tag = EmptyString ∨ tag = "json" →
  nl1 = String LF EmptyString ∨ nl1 = String CR (String LF EmptyString) →
  nl2 = String LF EmptyString ∨ nl2 = String CR (String LF EmptyString) →
  strip_fences (fence ++ tag ++ nl1 ++ body ++ nl2 ++ fence) = JsString.trim body.
Proof.
  intros Htag Hnl1 Hnl2. unfold strip_fences.
  assert (startsWith (fence ++ tag ++ nl1 ++ body ++ nl2 ++ fence) fence = true) as ->.
  { apply startsWith_app. eauto. }
  rewrite strip_leading_fence_opening by done.
  by apply strip_trailing_fence_closing.
Qed.

End fences.

Lemma strip_fences_unwraps_witness :
  strip_fences
    (fence ++ "json" ++ String LF EmptyString ++ "{ }  "
       ++ String CR (String LF EmptyString) ++ fence)%string
  = "{ }".
Proof.
  apply (strip_fences_unwraps "json" (String LF EmptyString)
           (String CR (String LF EmptyString)) "{ }  ").
  - right. reflexivity.
  - left. reflexivity.
  - right. reflexivity.
Defined.

(** * Properties of the handler *)

Import Controller.

Lemma nonempty_false (s : string) : nonempty s = false ↔ s = EmptyString.
Proof. destruct s; simpl; split; congruence. Qed.

Lemma reply_code (result : option (list Desk)) :
  (code (reply result) = 200 ↔ result ≠ None)
  ∧ (code (reply result) = 500 ↔ result = None)
  ∧ code (reply result) ≠ 400.
Proof.
  destruct result as [l|]; simpl.
  - destruct (length l =? 0)%nat; simpl; repeat split; try done; discriminate.
  - repeat split; try done; discriminate.
Qed.

(** What the two validations let through. *)
Lemma checked_employeeId_inr (employeeId : option json) (e : option string) :
  checked_employeeId employeeId = inr e ↔
  (employeeId = None ∧ e = None)
  ∨ ∃ s, employeeId = Some (JStr s)
         ∧ e = if nonempty (JsString.trim s) then Some (JsString.trim s) else None.
Proof.
  unfold checked_employeeId. split.
  - destruct employeeId as [[| | |s| |]|]; try discriminate.
    + intros [= <-]. right. eauto.
    + intros [= <-]. by left.
  - intros [[-> ->]|(s & -> & ->)]; reflexivity.
Qed.

Lemma checked_query_inr (query : option json) (q : string) :
  checked_query query = inr q ↔
  ∃ s, query = Some (JStr s) ∧ q = JsString.trim s
       ∧ q ≠ EmptyString ∧ (String.length q ≤ 200)%nat.
Proof.
  unfold checked_query. split.
  - destruct query as [[| | |s| |]|]; try discriminate.
    destruct (nonempty (JsString.trim s)) eqn:En; simpl; [|discriminate].
    destruct (Nat.ltb_spec 200 (String.length (JsString.trim s))); [discriminate|].
    intros [= <-]. exists s. split; [done|]. split; [done|]. split; [|lia].
    intros Hq. rewrite Hq in En. discriminate.
  - intros (s & -> & -> & Hne & Hlen).
    destruct (nonempty (JsString.trim s)) eqn:En; simpl.
    + destruct (Nat.ltb_spec 200 (String.length (JsString.trim s))); [lia | done].
    + by apply nonempty_false in En.
Qed.

(** X14. The handler answers 400 exactly when [employeeId] is there and is
    no string, or [query] is no string, or the trimmed query is empty or
    longer than 200 characters; such an answer reports no success, carries no
    data and does not depend on the reference data or on the collaborators. *)
Theorem handler_rejects_iff
    (desksData : list Desk) (occData : list Occupancy) (spacesData : list Space)
    (prefsData : list EmployeePreferences) (policiesData : list Policy)
    (metricsData : list Metric) (sensorsData : list Sensor)
    (chat : string → completion) (JSON_parse : string → option json) (now : Z)
    (employeeId query : option json) :
  let r := respond desksData occData spacesData prefsData policiesData metricsData
             sensorsData chat JSON_parse now employeeId query in
  (code r = 400 ↔
     (∃ v, employeeId = Some v ∧ ∀ s, v ≠ JStr s)
     ∨ (∀ s, query ≠ Some (JStr s))
     ∨ ∃ s, query = Some (JStr s)
            ∧ (JsString.trim s = EmptyString
               ∨ (200 < String.length (JsString.trim s))%nat))
  ∧ (code r = 400 →
     success r = false ∧ data r = None ∧ is_Some (error r)
     ∧ ∀ desksData' occData' spacesData' prefsData' policiesData' metricsData'
         sensorsData' chat' JSON_parse' now',
         respond desksData' occData' spacesData' prefsData' policiesData'
           metricsData' sensorsData' chat' JSON_parse' now' employeeId query = r).
Proof.
  intros r. subst r. unfold respond.
  destruct (checked_employeeId employeeId) as [re|e] eqn:Ee.
  { assert (∃ v, employeeId = Some v ∧ ∀ s, v ≠ JStr s) as Hbad.
    { unfold checked_employeeId in Ee.
      destruct employeeId as [[| | |s| |]|]; try discriminate;
        eexists; (split; [reflexivity | intros ?; discriminate]). }
    assert (re = bad_request "employeeId must be a string") as ->.
    { unfold checked_employeeId in Ee.
      by destruct employeeId as [[| | |s| |]|]; try discriminate;
        injection Ee as <-. }
    split; [split; [by left | done]|]. intros _. simpl. eauto 10. }
  destruct (checked_query query) as [rq|q] eqn:Eq.
  { assert (code rq = 400 ∧ success rq = false ∧ data rq = None ∧ is_Some (error rq))
      as (Hc & Hs & Hd & He).
    { unfold checked_query in Eq.
      destruct query as [[| | |s| |]|]; try (injection Eq as <-; simpl; eauto).
      destruct (negb _); [injection Eq as <-; simpl; eauto|].
      destruct (_ <? _)%nat; [injection Eq as <-; simpl; eauto | discriminate]. }
    split; [|by intros _].
    split; [intros _|done]. right.
    destruct query as [[| | |s| |]|]; try (left; intros ?; discriminate).
    right. exists s. split; [done|].
    unfold checked_query in Eq.
    destruct (nonempty (JsString.trim s)) eqn:En; simpl in Eq.
    - destruct (Nat.ltb_spec 200 (String.length (JsString.trim s)));
        [by right | discriminate].
    - left. by apply nonempty_false. }
  destruct (reply_code (matchDesks desksData occData spacesData prefsData policiesData
                          metricsData sensorsData chat JSON_parse now e q))
    as (_ & _ & Hne).
  split; [|done]. split; [done|]. intros Hbad. exfalso.
  apply checked_employeeId_inr in Ee. apply checked_query_inr in Eq.
  destruct Eq as (s & -> & -> & Hq & Hlen).
  destruct Hbad as [(v & -> & Hv)|[Hq'|(s' & [= <-] & [?|?])]].
  - destruct Ee as [[? _]|(s' & [= ->] & _)]; [discriminate | by destruct (Hv s')].
  - by destruct (Hq' s).
  - done.
  - lia.
Qed.

Lemma handler_rejects_iff_witness :
  code (respond Fixtures.desks0 Fixtures.occupancy0 Fixtures.spaces0 Fixtures.prefs0
          Fixtures.policies0 Fixtures.metrics0 Fixtures.sensors0 Fixtures.chat_throws
          Fixtures.parse_throws Fixtures.now0
          (Some (JNum 7)) (Some (JStr "any free desk"))) = 400
  ∧ code (respond Fixtures.desks0 Fixtures.occupancy0 Fixtures.spaces0 Fixtures.prefs0
            Fixtures.policies0 Fixtures.metrics0 Fixtures.sensors0
            Fixtures.chat_throws Fixtures.parse_throws Fixtures.now0
            None (Some (JStr "   "))) = 400.
Proof.
  split.
  - apply (proj2 (proj1 (handler_rejects_iff Fixtures.desks0 Fixtures.occupancy0
             Fixtures.spaces0 Fixtures.prefs0 Fixtures.policies0 Fixtures.metrics0
             Fixtures.sensors0 Fixtures.chat_throws Fixtures.parse_throws
             Fixtures.now0 (Some (JNum 7)) (Some (JStr "any free desk"))))).
    left. exists (JNum 7). split; [reflexivity | intros s; discriminate].
  - apply (proj2 (proj1 (handler_rejects_iff Fixtures.desks0 Fixtures.occupancy0
             Fixtures.spaces0 Fixtures.prefs0 Fixtures.policies0 Fixtures.metrics0
             Fixtures.sensors0 Fixtures.chat_throws Fixtures.parse_throws
             Fixtures.now0 None (Some (JStr "   "))))).
    right. right. exists "   ". split; [reflexivity | left; reflexivity].
Defined.

(** X15. What the handler hands to [matchDesks] is clean: the query is
    trimmed, not empty and at most 200 characters long, and the employee
    identifier is absent or trimmed and not empty; the answer is the reply to
    the result of [matchDesks] on them. *)
Theorem handler_hands_on_clean_input
    (desksData : list Desk) (occData : list Occupancy) (spacesData : list Space)
    (prefsData : list EmployeePreferences) (policiesData : list Policy)
    (metricsData : list Metric) (sensorsData : list Sensor)
    (chat : string → completion) (JSON_parse : string → option json) (now : Z)
    (employeeId query : option json) (e : option string) (q : string) :
  checked_employeeId employeeId = inr e →
  checked_query query = inr q →
  respond desksData occData spacesData prefsData policiesData metricsData
    sensorsData chat JSON_parse now employeeId query
  = reply (matchDesks desksData occData spacesData prefsData policiesData
             metricsData sensorsData chat JSON_parse now e q)
  ∧ JsString.trim q = q ∧ q ≠ EmptyString ∧ (String.length q ≤ 200)%nat
  ∧ ∀ i, e = Some i → JsString.trim i = i ∧ i ≠ EmptyString.
Proof.
  intros He Hq. split; [unfold respond; by rewrite He, Hq|].
  apply checked_query_inr in Hq as (s & -> & -> & Hne & Hlen).
  split; [apply trim_idemp|]. split; [done|]. split; [done|].
  intros i Hi. apply checked_employeeId_inr in He as [[_ ->]|(s' & -> & ->)];
    [discriminate|].
  destruct (nonempty (JsString.trim s')) eqn:En; [|discriminate].
  injection Hi as <-. split; [apply trim_idemp|].
  intros Hempty. rewrite Hempty in En. discriminate.
Qed.

Lemma handler_hands_on_clean_input_witness :
  respond Fixtures.desks0 Fixtures.occupancy0 Fixtures.spaces0 Fixtures.prefs0
    Fixtures.policies0 Fixtures.metrics0 Fixtures.sensors0 Fixtures.chat_throws
    Fixtures.parse_throws Fixtures.now0
    (Some (JStr " E-1 ")) (Some (JStr "  my usual desk "))
  = reply (matchDesks Fixtures.desks0 Fixtures.occupancy0 Fixtures.spaces0
             Fixtures.prefs0 Fixtures.policies0 Fixtures.metrics0 Fixtures.sensors0
             Fixtures.chat_throws Fixtures.parse_throws Fixtures.now0
             (Some "E-1") "my usual desk")
  ∧ JsString.trim "my usual desk" = "my usual desk"
  ∧ "my usual desk" ≠ EmptyString
  ∧ (String.length "my usual desk" ≤ 200)%nat
  ∧ ∀ i, Some "E-1" = Some i → JsString.trim i = i ∧ i ≠ EmptyString.
Proof.
  apply (handler_hands_on_clean_input Fixtures.desks0 Fixtures.occupancy0
           Fixtures.spaces0 Fixtures.prefs0 Fixtures.policies0 Fixtures.metrics0
           Fixtures.sensors0 Fixtures.chat_throws Fixtures.parse_throws Fixtures.now0
           (Some (JStr " E-1 ")) (Some (JStr "  my usual desk "))); reflexivity.
Defined.

(** X16. An answer with status 200 reports success and carries as data the
    desks [matchDesks] returned: desks of the data with status [available],
    none more often than the data lists it.  Its message is the one for no
    desks exactly when the data are empty, and else names the number of desks
    in the data. *)
Theorem handler_success_carries_result
    (desksData : list Desk) (occData : list Occupancy) (spacesData : list Space)
    (prefsData : list EmployeePreferences) (policiesData : list Policy)
    (metricsData : list Metric) (sensorsData : list Sensor)
    (chat : string → completion) (JSON_parse : string → option json) (now : Z)
    (employeeId query : option json) :
  let r := respond desksData occData spacesData prefsData policiesData metricsData
             sensorsData chat JSON_parse now employeeId query in
  code r = 200 →
  success r = true ∧ error r = None
  ∧ ∃ e q l,
      checked_employeeId employeeId = inr e ∧ checked_query query = inr q
      ∧ matchDesks desksData occData spacesData prefsData policiesData metricsData
          sensorsData chat JSON_parse now e q = Some l
      ∧ data r = Some l
      ∧ l ⊆+ desksData
      ∧ (∀ d, In d l → d_status d = "available")
      ∧ message r
        = Some (match l with
                | [] => "No desks found matching your criteria"
                | _ => found_message (length l)
                end).
Proof.
  intros r. subst r. unfold respond.
  destruct (checked_employeeId employeeId) as [re|e] eqn:Ee.
  { unfold checked_employeeId in Ee.
    destruct employeeId as [[| | |s| |]|]; try discriminate;
      injection Ee as <-; discriminate. }
  destruct (checked_query query) as [rq|q] eqn:Eq.
  { unfold checked_query in Eq.
    destruct query as [[| | |s| |]|]; try (injection Eq as <-; discriminate).
    destruct (negb _); [injection Eq as <-; discriminate|].
    destruct (_ <? _)%nat; [injection Eq as <-; discriminate | discriminate]. }
  destruct (matchDesks desksData occData spacesData prefsData policiesData
              metricsData sensorsData chat JSON_parse now e q) as [l|] eqn:Hrun;
    [|discriminate].
  intros _.
  assert (l ⊆+ desksData ∧ ∀ d, In d l → d_status d = "available") as [Hsub Hav].
  { destruct (matchDesks_inv _ _ _ _ _ _ _ _ _ _ _ _ _ Hrun) as (parsed & Hparse & Hrank).
    split.
    - rewrite (rank_Permutation _ _ _ _ _ _ _ _ _ Hrank).
      apply sublist_submseteq, filter_sublist.
    - intros d Hd.
      destruct (returned_passes _ _ _ _ _ _ _ _ _ _ _ _ _ _ _ Hparse Hrun Hd)
        as [_ Hp].
      apply passes_true in Hp as (Hp & _). by apply String.eqb_eq. }
  destruct l as [|d l]; simpl; (split; [done|]); (split; [done|]);
    exists e, q; eexists; by repeat (split; [done|]).
Qed.

Lemma handler_success_carries_result_witness :
  let r := respond Fixtures.desks0 Fixtures.occupancy0 Fixtures.spaces0 Fixtures.prefs0
             Fixtures.policies0 Fixtures.metrics0 Fixtures.sensors0
             Fixtures.chat_throws Fixtures.parse_throws Fixtures.now0
             (Some (JStr "E-1")) (Some (JStr "my usual desk")) in
  success r = true ∧ error r = None
  ∧ ∃ e q l,
      checked_employeeId (Some (JStr "E-1")) = inr e
      ∧ checked_query (Some (JStr "my usual desk")) = inr q
      ∧ matchDesks Fixtures.desks0 Fixtures.occupancy0 Fixtures.spaces0
          Fixtures.prefs0 Fixtures.policies0 Fixtures.metrics0 Fixtures.sensors0
          Fixtures.chat_throws Fixtures.parse_throws Fixtures.now0 e q = Some l
      ∧ data r = Some l
      ∧ l ⊆+ Fixtures.desks0
      ∧ (∀ d, In d l → d_status d = "available")
      ∧ message r
        = Some (match l with
                | [] => "No desks found matching your criteria"
                | _ => found_message (length l)
                end).
Proof.
  apply (handler_success_carries_result Fixtures.desks0 Fixtures.occupancy0
           Fixtures.spaces0 Fixtures.prefs0 Fixtures.policies0 Fixtures.metrics0
           Fixtures.sensors0 Fixtures.chat_throws Fixtures.parse_throws
           Fixtures.now0 (Some (JStr "E-1")) (Some (JStr "my usual desk"))).
  vm_compute. reflexivity.
Defined.

(** The message of the README's answer. *)
Example found_message_one : found_message 1 = "Found 1 desk".
Proof. reflexivity. Qed.

Example found_message_many : found_message 12 = "Found 12 desks".
Proof. reflexivity. Qed.

(** X17. The handler answers 500, with the error text
    [Internal server error] and without data, exactly when the input passes
    both validations and [matchDesks] throws; and the handler itself throws
    only on a body that is [null]. *)
Theorem handler_internal_error_iff
    (desksData : list Desk) (occData : list Occupancy) (spacesData : list Space)
    (prefsData : list EmployeePreferences) (policiesData : list Policy)
    (metricsData : list Metric) (sensorsData : list Sensor)
    (chat : string → completion) (JSON_parse : string → option json) (now : Z)
    (body : json) :
  (matchDesksHandler desksData occData spacesData prefsData policiesData metricsData
     sensorsData chat JSON_parse now body = None ↔ body = JNull)
  ∧ ∀ employeeId query,
      get_prop body "employeeId" = Some employeeId →
      get_prop body "query" = Some query →
      ∃ r,
        matchDesksHandler desksData occData spacesData prefsData policiesData
          metricsData sensorsData chat JSON_parse now body = Some r
        ∧ (code r = 500 ↔
             ∃ e q, checked_employeeId employeeId = inr e
                    ∧ checked_query query = inr q
                    ∧ matchDesks desksData occData spacesData prefsData policiesData
                        metricsData sensorsData chat JSON_parse now e q = None)
        ∧ (code r = 500 →
           success r = false ∧ data r = None
           ∧ error r = Some "Internal server error").
Proof.
  split.
  - unfold matchDesksHandler. destruct body; simpl; split; try done; discriminate.
  - intros employeeId query He Hq. unfold matchDesksHandler. rewrite He, Hq. simpl.
    eexists. split; [reflexivity|]. unfold respond.
    destruct (checked_employeeId employeeId) as [re|e] eqn:Ee.
    { assert (code re = 400) as Hc.
      { unfold checked_employeeId in Ee.
        by destruct employeeId as [[| | |s| |]|]; try discriminate;
          injection Ee as <-. }
      split; [|rewrite Hc; discriminate].
      split; [rewrite Hc; discriminate | intros (? & ? & ? & _); discriminate]. }
    destruct (checked_query query) as [rq|q] eqn:Eq.
    { assert (code rq = 400) as Hc.
      { unfold checked_query in Eq.
        destruct query as [[| | |s| |]|]; try (by injection Eq as <-).
        destruct (negb _); [by injection Eq as <-|].
        destruct (_ <? _)%nat; [by injection Eq as <- | discriminate]. }
      split; [|rewrite Hc; discriminate].
      split; [rewrite Hc; discriminate | intros (? & ? & _ & ? & _); discriminate]. }
    destruct (matchDesks desksData occData spacesData prefsData policiesData
                metricsData sensorsData chat JSON_parse now e q) as [l|] eqn:Hrun.
    + assert (code (reply (Some l)) = 200) as Hc
        by (simpl; by destruct (length l =? 0)%nat).
      split; [|rewrite Hc; discriminate].
      split; [rewrite Hc; discriminate|].
      intros (e' & q' & [= <-] & [= <-] & Hnone). congruence.
    + simpl. split; [|done]. split; [|done]. intros _. by exists e, q.
Qed.

Lemma handler_internal_error_iff_witness :
  ∃ r,
    matchDesksHandler [Fixtures.D101] [] [] [] [] [] [] Fixtures.chat_answers
      (Fixtures.parses_to JNull) Fixtures.now0
      (JObj [("query", JStr "any free desk")]) = Some r
    ∧ code r = 500 ∧ error r = Some "Internal server error".
Proof.
  destruct (proj2 (handler_internal_error_iff [Fixtures.D101] [] [] [] [] [] []
                     Fixtures.chat_answers (Fixtures.parses_to JNull) Fixtures.now0
                     (JObj [("query", JStr "any free desk")]))
              None (Some (JStr "any free desk")) eq_refl eq_refl)
    as (r & Hr & Hiff & Hshape).
  exists r. split; [exact Hr|].
  assert (code r = 500) as Hc.
  { apply Hiff. exists None, "any free desk".
    split; [reflexivity|]. split; reflexivity. }
  split; [exact Hc | apply Hshape, Hc].
Defined.

(** X18. White space around the employee identifier and around the query
    does not change the answer, and an employee identifier of white space
    alone is answered like an absent one. *)
Theorem handler_ignores_surrounding_space
    (desksData : list Desk) (occData : list Occupancy) (spacesData : list Space)
    (prefsData : list EmployeePreferences) (policiesData : list Policy)
    (metricsData : list Metric) (sensorsData : list Sensor)
    (chat : string → completion) (JSON_parse : string → option json) (now : Z)
    (i q : string) (query : option json) :
  respond desksData occData spacesData prefsData policiesData metricsData
    sensorsData chat JSON_parse now (Some (JStr i)) (Some (JStr q))
  = respond desksData occData spacesData prefsData policiesData metricsData
      sensorsData chat JSON_parse now
      (Some (JStr (JsString.trim i))) (Some (JStr (JsString.trim q)))
  ∧ (JsString.trim i = EmptyString →
     respond desksData occData spacesData prefsData policiesData metricsData
       sensorsData chat JSON_parse now (Some (JStr i)) query
     = respond desksData occData spacesData prefsData policiesData metricsData
         sensorsData chat JSON_parse now None query).
Proof.
  split.
  - unfold respond, checked_employeeId, checked_query. by rewrite !trim_idemp.
  - intros Hi. unfold respond, checked_employeeId. by rewrite Hi.
Qed.

Lemma handler_ignores_surrounding_space_witness :
  respond Fixtures.desks0 Fixtures.occupancy0 Fixtures.spaces0 Fixtures.prefs0
    Fixtures.policies0 Fixtures.metrics0 Fixtures.sensors0 Fixtures.chat_throws
    Fixtures.parse_throws Fixtures.now0
    (Some (JStr "  ")) (Some (JStr "any free desk"))
  = respond Fixtures.desks0 Fixtures.occupancy0 Fixtures.spaces0 Fixtures.prefs0
      Fixtures.policies0 Fixtures.metrics0 Fixtures.sensors0 Fixtures.chat_throws
      Fixtures.parse_throws Fixtures.now0 None (Some (JStr "any free desk")).
Proof.
  apply (proj2 (handler_ignores_surrounding_space Fixtures.desks0 Fixtures.occupancy0
                  Fixtures.spaces0 Fixtures.prefs0 Fixtures.policies0
                  Fixtures.metrics0 Fixtures.sensors0 Fixtures.chat_throws
                  Fixtures.parse_throws Fixtures.now0 "  " "any free desk"
                  (Some (JStr "any free desk")))).
  reflexivity.
Defined.

(** * The order of the returned desks *)

(** X19. The count of matched equipment tags never decides the order: in
    each of the two parts of the output, of two desks the earlier and the
    later match as many equipment tags, the earlier was not used later, and
    with the same [last_used] its utilization is not higher. *)
Theorem returned_order_by_recency_then_utilization
    (desksData : list Desk) (occData : list Occupancy) (spacesData : list Space)
    (prefsData : list EmployeePreferences) (policiesData : list Policy)
    (metricsData : list Metric) (sensorsData : list Sensor)
    (chat : string → completion) (JSON_parse : string → option json) (now : Z)
    (employeeId : option string) (query : string)
    (parsed : Parsed) (l : list Desk) :
  parseQuery chat JSON_parse query = Some parsed →
  matchDesks desksData occData spacesData prefsData policiesData metricsData
    sensorsData chat JSON_parse now employeeId query = Some l →
  let eff := effective prefsData employeeId parsed in
  ∃ adjPart otherPart,
    in_two_parts (adjPrefs eff) l adjPart otherPart
    ∧ ∀ part, part = adjPart ∨ part = otherPart →
        ∀ l1 A l2 B l3, part = l1 ++ A :: l2 ++ B :: l3 →
          matchCount eff A = matchCount eff B
          ∧ d_last_used A ≤ d_last_used B
          ∧ (d_last_used A = d_last_used B →
             (utilization metricsData A <= utilization metricsData B)%Q).
Proof.
  intros Hparse Hrun eff.
  destruct (matchDesks_inv _ _ _ _ _ _ _ _ _ _ _ _ _ Hrun) as (parsed' & Hparse' & Hrank).
  assert (parsed' = parsed) as -> by congruence.
  destruct (rank_parts _ _ _ _ _ _ _ _ _ Hrank)
    as (adjPart & otherPart & Hparts & _ & Ha & Ho).
  exists adjPart, otherPart. split; [done|].
  intros part Hpart l1 A l2 B l3 E.
  assert (∀ d, In d part → matchCount eff d = length (equipNeeds eff)) as Hcount.
  { intros d Hd. eapply passes_matchCount.
    eapply (returned_passes _ _ _ _ _ _ _ _ _ _ _ _ _ _ _ Hparse Hrun).
    destruct Hparts as (-> & _). apply in_or_app.
    destruct Hpart as [-> | ->]; [by left | by right]. }
  assert (matchCount eff A = matchCount eff B) as Hm.
  { rewrite !Hcount; [done | |]; rewrite E; apply in_or_app; right.
    - right. apply in_or_app. right. by left.
    - by left. }
  split; [done|].
  assert (ranked metricsData eff part) as Hr by (by destruct Hpart as [-> | ->]).
  destruct (Hr _ _ _ _ _ E) as [_ H]. by apply H.
Qed.

Lemma returned_order_by_recency_then_utilization_witness :
  let eff := Fixtures.eff_marketing in
  ∃ adjPart otherPart,
    in_two_parts (adjPrefs eff) [Fixtures.D201; Fixtures.D101; Fixtures.D102]
      adjPart otherPart
    ∧ ∀ part, part = adjPart ∨ part = otherPart →
        ∀ l1 A l2 B l3, part = l1 ++ A :: l2 ++ B :: l3 →
          matchCount eff A = matchCount eff B
          ∧ d_last_used A ≤ d_last_used B
          ∧ (d_last_used A = d_last_used B →
             (utilization Fixtures.metrics0 A <= utilization Fixtures.metrics0 B)%Q).
Proof.
  apply (returned_order_by_recency_then_utilization Fixtures.desks0
           Fixtures.occupancy0 Fixtures.spaces0 Fixtures.prefs0 []
           Fixtures.metrics0 Fixtures.sensors0 Fixtures.chat_answers
           (Fixtures.parses_to Fixtures.reply_marketing) Fixtures.now0 None
           "a desk near marketing").
  - vm_compute. reflexivity.
  - vm_compute. reflexivity.
Defined.

Lemma Array_sort_sorted_fixed {A} (compare : A → A → Q) (l : list A) :
  StronglySorted (before compare) l → Array_sort compare l = l.
Proof.
  induction 1 as [|x l Hs IH Hx]; [done|].
  unfold Array_sort in *. simpl. rewrite IH.
  destruct l as [|y l]; [done|]. simpl.
  apply Forall_cons in Hx as [Hxy _].
  apply Qle_bool_iff in Hxy. by rewrite Hxy.
Qed.

(** X20. Ranking a ranked list changes nothing, and ranking keeps the desks
    it is given, each as often as it came. *)
Theorem sorter_idempotent
    (metricsData : list Metric) (eff : Effective) (arr : list Desk) :
  sorter metricsData eff (sorter metricsData eff arr) = sorter metricsData eff arr
  ∧ Permutation (sorter metricsData eff arr) arr.
Proof.
  split; [|apply sorter_Permutation].
  apply Array_sort_sorted_fixed, sorter_sorted.
Qed.

(** * Areas without a sensor *)

Lemma sensorMap_None (sensorsData : list Sensor) (a : string) :
  (∀ s, In s sensorsData → s_area_id s ≠ a) → sensorMap sensorsData !! a = None.
Proof.
  unfold sensorMap.
  generalize (lookup_empty (M:=gmap string) (A:=SensorHealth) a).
  generalize (∅ : gmap string SensorHealth) as m0.
  induction sensorsData as [|s l IH]; simpl; intros m0 H0 Hl; [done|].
  apply IH; [|intros; apply Hl; by right].
  rewrite lookup_insert_ne; [done | apply Hl; by left].
Qed.

Lemma inherited_In (k : string) :
  inherited k = true ↔ In k Object_prototype_members.
Proof.
  unfold inherited. rewrite existsb_exists. split.
  - intros (x & Hx & E). apply String.eqb_eq in E. by subst.
  - intros H. exists k. split; [done | apply String.eqb_refl].
Qed.

(** X21. A desk whose area has no sensor record passes the sensor test, and
    the callback of the filter is on it the conjunction of the other eight
    tests, when the area is not named like a member of [Object.prototype] and
    is not read from a sensor record stored under [__proto__] (no such record,
    or the area named neither [status] nor [lastReading]).  A desk whose area
    has no sensor record and is named like a member of [Object.prototype]
    fails the sensor test. *)
Theorem unmonitored_area_passes
    (occData : list Occupancy) (spacesData : list Space)
    (policiesData : list Policy) (sensorsData : list Sensor) (now : Z)
    (eff : Effective) (d : Desk) :
  (∀ s, In s sensorsData → s_area_id s ≠ d_area_id d) →
  (¬ In (d_area_id d) Object_prototype_members →
   (∀ s, In s sensorsData → s_area_id s ≠ "__proto__")
   ∨ (d_area_id d ≠ "status" ∧ d_area_id d ≠ "lastReading") →
   sensorHealth sensorsData now d = true
   ∧ passes occData spacesData policiesData sensorsData now eff d
     = forallb (fun p => p d)
         [ availability; deskType eff; standingPolicy eff; equipment eff;
           location spacesData eff; capacity occData policiesData;
           sanitization policiesData now; accessibility eff ])
  ∧ (In (d_area_id d) Object_prototype_members →
     sensorHealth sensorsData now d = false
     ∧ passes occData spacesData policiesData sensorsData now eff d = false).
Proof.
  intros Hnone. pose proof (sensorMap_None _ _ Hnone) as Hmap. split.
  - intros Hmember Hproto.
    assert (sensorHealth sensorsData now d = true) as Hs.
    { unfold sensorHealth, sensor_read. rewrite Hmap.
      destruct (inherited (d_area_id d)) eqn:E;
        [by apply inherited_In in E|].
      destruct Hproto as [Hproto|[Hst Hlr]].
      - by rewrite (sensorMap_None _ _ Hproto).
      - apply String.eqb_neq in Hst, Hlr. rewrite Hst, Hlr.
        by destruct (sensorMap sensorsData !! "__proto__"). }
    split; [done|].
    rewrite passes_cascade. unfold cascade, forallb. rewrite Hs.
    by rewrite !andb_true_r.
  - intros Hmember.
    assert (sensorHealth sensorsData now d = false) as Hs.
    { unfold sensorHealth, sensor_read. rewrite Hmap.
      apply inherited_In in Hmember. by rewrite Hmember. }
    split; [done|].
    rewrite passes_cascade. unfold cascade, forallb. rewrite Hs.
    by rewrite !andb_false_r.
Qed.

Lemma unmonitored_area_passes_witness :
  (sensorHealth Fixtures.sensors0 Fixtures.now0 Fixtures.D201 = true
   ∧ passes Fixtures.occupancy0 Fixtures.spaces0 Fixtures.policies0 Fixtures.sensors0
       Fixtures.now0 Fixtures.eff_marketing Fixtures.D201
     = forallb (fun p => p Fixtures.D201)
         [ availability; deskType Fixtures.eff_marketing;
           standingPolicy Fixtures.eff_marketing; equipment Fixtures.eff_marketing;
           location Fixtures.spaces0 Fixtures.eff_marketing;
           capacity Fixtures.occupancy0 Fixtures.policies0;
           sanitization Fixtures.policies0 Fixtures.now0;
           accessibility Fixtures.eff_marketing ])
  ∧ sensorHealth Fixtures.sensors0 Fixtures.now0 Fixtures.D_constructor = false.
Proof.
  split.
  - apply (proj1 (unmonitored_area_passes Fixtures.occupancy0 Fixtures.spaces0
                    Fixtures.policies0 Fixtures.sensors0 Fixtures.now0
                    Fixtures.eff_marketing Fixtures.D201
                    ltac:(simpl; intros s [<-|[<-|[]]]; simpl; discriminate))).
    + simpl. intros H. repeat (destruct H as [H|H]; [discriminate H|]). exact H.
    + left. simpl. intros s [<-|[<-|[]]]; simpl; discriminate.
  - apply (proj2 (unmonitored_area_passes Fixtures.occupancy0 Fixtures.spaces0
                    Fixtures.policies0 Fixtures.sensors0 Fixtures.now0
                    Fixtures.eff_marketing Fixtures.D_constructor
                    ltac:(simpl; intros s [<-|[<-|[]]]; simpl; discriminate))).
    simpl. tauto.
Defined.

(** * Areas named like members of [Object.prototype]

    The three lookup objects on inputs where the prototype chain shows. *)

(** An occupancy entry for the name [__proto__] is not stored: its desk
    passes the capacity test at 85 percent; and the sensor record for that
    name, which becomes the prototype of [sensorMap], is the one read back. *)
Example area_named_proto :
  occMap [ {| o_area_id := "__proto__"; o_occupancy_percentage := 85 |} ]
    = (∅ : gmap string Q)
  ∧ matchDesks [Fixtures.D_proto]
      [ {| o_area_id := "__proto__"; o_occupancy_percentage := 85 |} ] []
      [] [ {| pol_id := "POL-005" |} ] []
      [ {| s_area_id := "__proto__"; s_status := "active";
           s_last_reading := 1746608100000 |} ]
      Fixtures.chat_throws Fixtures.parse_throws Fixtures.now0 None "any free desk"
    = Some [Fixtures.D_proto]
  ∧ matchDesks [Fixtures.D_proto]
      [ {| o_area_id := "__proto__"; o_occupancy_percentage := 85 |} ] []
      [] [ {| pol_id := "POL-005" |} ] []
      [ {| s_area_id := "__proto__"; s_status := "offline";
           s_last_reading := 1746608100000 |} ]
      Fixtures.chat_throws Fixtures.parse_throws Fixtures.now0 None "any free desk"
    = Some [].
Proof. repeat split; vm_compute; reflexivity. Qed.

(** Without a sensor record of its own, a desk of the area [constructor] or
    [__proto__] meets an inherited member, whose [status] is [undefined], and
    is rejected; so is a desk of the area [status] once a sensor record is
    the prototype. *)
Example areas_reading_inherited_members :
  matchDesks [Fixtures.D_constructor; Fixtures.D_proto; Fixtures.D101] [] [] [] [] [] []
    Fixtures.chat_throws Fixtures.parse_throws Fixtures.now0 None "any free desk"
  = Some [Fixtures.D101]
  ∧ sensor_read
      [ {| s_area_id := "__proto__"; s_status := "active";
           s_last_reading := 1746608100000 |} ] "status" = Foreign true
  ∧ sensor_read
      [ {| s_area_id := "__proto__"; s_status := "active";
           s_last_reading := 1746608100000 |} ] "area-001" = NoValue.
Proof. repeat split; vm_compute; reflexivity. Qed.

(** A metrics record for the area [constructor] is never stored. *)
Example metrics_of_area_constructor :
  let m := {| m_area_id := "constructor"; m_date := 1746403200000;
              m_utilization_rate := Some (2 # 10) |} in
  metricsMap [m] = (∅ : gmap string Metric)
  ∧ utilization [m] Fixtures.D_constructor = 1%Q.
Proof. split; vm_compute; reflexivity. Qed.
